(** * Ownership wrappers of Crypto++ (smartptr.h)

    A shallow embedding of the ownership wrappers [simple_ptr], [member_ptr],
    [value_ptr], [counted_ptr] and [vector_member_ptrs], and the properties
    of their ownership protocols.

    The C++ operations act on a store: heap objects of the wrapped type [T],
    the log of addresses handed to [delete], and the [m_p] field of every
    live wrapper, keyed by the wrapper's own address (its [this]). *)

From Stdlib Require Import ZArith Lia.
From stdpp Require Import base option list gmap fin_maps.

Local Open Scope Z_scope.

(** ** The store *)

(** A [T*] is [None] for the null pointer and [Some l] for the address [l]. *)
Abbreviation ptr := (option positive).

Section SmartPtr.

(** The wrapped type is the template parameter [T].  Of a [T], the wrappers
    touch its field [m_referenceCount] (whose integer type [T] chooses: it is
    an unbounded integer here), its copy constructor, [clone()] and
    [operator==]; [payload] stands for everything else a [T] holds. *)
Context {V : Type}.

Record T := mkT { payload : V; m_referenceCount : Z }.

Record state := mkState {
  objs : gmap positive T;       (* the live heap objects, by address *)
  freed : list positive;        (* addresses given to delete, latest first *)
  cells : gmap positive ptr     (* m_p of each live wrapper, by its address *)
}.

(** What a call does: it returns normally, stops in an assertion trap, or
    has no defined behaviour (a dead or null object is touched, or an object
    is deleted twice).  [OutOfFuel] is a loop that ran out of fuel. *)
Inductive outcome (A : Type) : Type :=
  | Done (a : A) (s : state)
  | Trap
  | Undefined
  | OutOfFuel.
#[global] Arguments Done {A} a s.
#[global] Arguments Trap {A}.
#[global] Arguments Undefined {A}.
#[global] Arguments OutOfFuel {A}.

Definition M (A : Type) : Type := state → outcome A.

Definition ret {A} (a : A) : M A := λ s, Done a s.

Definition bind {A B} (m : M A) (k : A → M B) : M B := λ s,
  match m s with
  | Done a s' => k a s'
  | Trap => Trap
  | Undefined => Undefined
  | OutOfFuel => OutOfFuel
  end.

Definition undefined {A} : M A := λ _, Undefined.

#[local] Notation "x <- m ;; k" := (bind m (λ x, k))
  (at level 100, m at next level, right associativity).
#[local] Notation "m ;;; k" := (bind m (λ _, k))
  (at level 100, right associativity).

(** [new T(o)]: a copy of [o] at an address that was never in use.  Allocation
    always succeeds, and addresses are not recycled, so that an address in
    [freed] names one object for good.
    Modelled from the spec: the copy constructor of [T] belongs to [T], which
    is not in the header; the copy it makes is equal to [o] by value. *)
Definition op_new (o : T) : M positive := λ s,
  let l := fresh (dom (objs s) ∪ list_to_set (freed s)) in
  Done l (mkState (<[l:=o]> (objs s)) (freed s) (cells s)).

(** [delete p]: nothing for the null pointer; the object must be live. *)
Definition op_delete (p : ptr) : M unit := λ s,
  match p with
  | None => Done tt s
  | Some l =>
      match objs s !! l with
      | Some _ => Done tt (mkState (delete l (objs s)) (l :: freed s) (cells s))
      | None => Undefined
      end
  end.

(** Reading and writing the object [*l]. *)
Definition load (l : positive) : M T := λ s,
  match objs s !! l with
  | Some o => Done o s
  | None => Undefined
  end.

Definition store (l : positive) (o : T) : M unit := λ s,
  match objs s !! l with
  | Some _ => Done tt (mkState (<[l:=o]> (objs s)) (freed s) (cells s))
  | None => Undefined
  end.

(** [l->m_referenceCount] as an rvalue and as an assignment target. *)
Definition get_referenceCount (l : positive) : M Z :=
  o <- load l ;; ret (m_referenceCount o).

Definition set_referenceCount (l : positive) (c : Z) : M unit :=
  o <- load l ;; store l (mkT (payload o) c).

(** Modelled from the spec: [T::clone()] belongs to [T], which is not in the
    header; it produces a new, independently owned, value-equal copy. *)
Definition T_clone (l : positive) : M positive :=
  o <- load l ;; op_new o.

(** The field [m_p] of the wrapper at address [this]. *)
Definition get_m_p (this : positive) : M ptr := λ s,
  match cells s !! this with
  | Some p => Done p s
  | None => Undefined
  end.

Definition set_m_p (this : positive) (p : ptr) : M unit := λ s,
  match cells s !! this with
  | Some _ => Done tt (mkState (objs s) (freed s) (<[this:=p]> (cells s)))
  | None => Undefined
  end.

(** The member initialiser [m_p(p)] of a constructor: storage for a new
    wrapper, at an address no live wrapper has. *)
Definition init_m_p (p : ptr) : M positive := λ s,
  let this := fresh (dom (cells s)) in
  Done this (mkState (objs s) (freed s) (<[this:=p]> (cells s))).

(** The storage of a wrapper goes away after its destructor has run. *)
Definition end_lifetime (this : positive) : M unit := λ s,
  match cells s !! this with
  | Some _ => Done tt (mkState (objs s) (freed s) (delete this (cells s)))
  | None => Undefined
  end.

(** ** simple_ptr *)

(** [simple_ptr(T *p = NULL) : m_p(p) {}] *)
Definition simple_ptr_ctor (p : ptr) : M positive := init_m_p p.

(** [~simple_ptr()]: [delete m_p; m_p = 0;] (the write is volatile). *)
Definition simple_ptr_dtor (this : positive) : M unit :=
  m_p <- get_m_p this ;;
  op_delete m_p ;;;
  set_m_p this None.

(** ** member_ptr *)

(** [explicit member_ptr(T *p = NULL) : m_p(p) {}] *)
Definition member_ptr_ctor (p : ptr) : M positive := init_m_p p.

(** [~member_ptr() {delete m_p;}] *)
Definition member_ptr_dtor (this : positive) : M unit :=
  m_p <- get_m_p this ;;
  op_delete m_p.

(** [get()], const and not. *)
Definition member_ptr_get (this : positive) : M ptr := get_m_p this.

(** [T* release()]: [old_p = m_p; m_p = 0; return old_p;] *)
Definition member_ptr_release (this : positive) : M ptr :=
  old_p <- get_m_p this ;;
  set_m_p this None ;;;
  ret old_p.

(** [void reset(T *p) {delete m_p; m_p = p;}] *)
Definition member_ptr_reset (this : positive) (p : ptr) : M unit :=
  m_p <- get_m_p this ;;
  op_delete m_p ;;;
  set_m_p this p.

(** ** value_ptr (derived from member_ptr) *)

(** [value_ptr(const T &obj) : member_ptr<T>(new T(obj)) {}] *)
Definition value_ptr_ctor_obj (obj : T) : M positive :=
  p <- op_new obj ;; member_ptr_ctor (Some p).

(** [value_ptr(T *p = NULL) : member_ptr<T>(p) {}] *)
Definition value_ptr_ctor (p : ptr) : M positive := member_ptr_ctor p.

(** [rhs.m_p ? new T( *rhs.m_p) : NULL] *)
Definition value_ptr_dup (rhs : positive) : M ptr :=
  rhs_m_p <- get_m_p rhs ;;
  match rhs_m_p with
  | Some l => o <- load l ;; p <- op_new o ;; ret (Some p)
  | None => ret None
  end.

(** [value_ptr(const value_ptr<T>& rhs)
      : member_ptr<T>(rhs.m_p ? new T( *rhs.m_p) : NULL) {}] *)
Definition value_ptr_copy_ctor (rhs : positive) : M positive :=
  p <- value_ptr_dup rhs ;; member_ptr_ctor p.

(** [bool operator==(const value_ptr<T>& rhs)]:
    [(!m_p && !rhs.m_p) || (m_p && rhs.m_p && *m_p == *rhs.m_p)];
    [T_eq] is the [operator==] of [T]. *)
Definition value_ptr_eq (T_eq : T → T → bool) (this rhs : positive)
  : M bool :=
  m_p <- get_m_p this ;;
  rhs_m_p <- get_m_p rhs ;;
  match m_p, rhs_m_p with
  | None, None => ret true
  | Some l, Some r => a <- load l ;; b <- load r ;; ret (T_eq a b)
  | _, _ => ret false
  end.

(** [value_ptr<T>& operator=(const value_ptr<T>& rhs)] *)
Definition value_ptr_assign (this rhs : positive) : M unit :=
  if negb (bool_decide (this = rhs)) then
    old_p <- get_m_p this ;;
    p <- value_ptr_dup rhs ;;
    set_m_p this p ;;;
    op_delete old_p
  else ret tt.

(** ** counted_ptr *)

(** [if (m_p && --m_p->m_referenceCount == 0) delete m_p;], the statement
    that the destructor, [attach] and [operator=] all start from. *)
Definition counted_ptr_unref (this : positive) : M unit :=
  m_p <- get_m_p this ;;
  match m_p with
  | Some l =>
      c <- get_referenceCount l ;;
      set_referenceCount l (c - 1) ;;;
      if c - 1 =? 0 then op_delete m_p else ret tt
  | None => ret tt
  end.

(** [m_p->m_referenceCount++;] *)
Definition incr_referenceCount (l : positive) : M unit :=
  c <- get_referenceCount l ;; set_referenceCount l (c + 1).

(** [explicit counted_ptr(T *p = 0) : m_p(p)
      { if (m_p) m_p->m_referenceCount = 1; }] *)
Definition counted_ptr_ctor (p : ptr) : M positive :=
  this <- init_m_p p ;;
  m_p <- get_m_p this ;;
  match m_p with
  | Some l => set_referenceCount l 1
  | None => ret tt
  end ;;;
  ret this.

(** [counted_ptr(const counted_ptr<T>& rhs) : m_p(rhs.m_p)
      { if (m_p) m_p->m_referenceCount++; }] *)
Definition counted_ptr_copy_ctor (rhs : positive) : M positive :=
  rhs_m_p <- get_m_p rhs ;;
  this <- init_m_p rhs_m_p ;;
  m_p <- get_m_p this ;;
  match m_p with
  | Some l => incr_referenceCount l
  | None => ret tt
  end ;;;
  ret this.

(** [~counted_ptr()] *)
Definition counted_ptr_dtor (this : positive) : M unit :=
  counted_ptr_unref this.

(** [void attach(const T &r)]; [r] is the address of the referenced object. *)
Definition counted_ptr_attach (this : positive) (r : positive) : M unit :=
  counted_ptr_unref this ;;;
  c <- get_referenceCount r ;;
  if c =? 0 then
    p <- T_clone r ;;
    set_m_p this (Some p) ;;;
    set_referenceCount p 1
  else
    set_m_p this (Some r) ;;;
    incr_referenceCount r.

(** [counted_ptr(const T &r) : m_p(0) {attach(r);}] *)
Definition counted_ptr_ctor_obj (r : positive) : M positive :=
  this <- init_m_p None ;;
  counted_ptr_attach this r ;;;
  ret this.

(** [const T* get() const { return m_p; }] *)
Definition counted_ptr_get_const (this : positive) : M ptr := get_m_p this.

(** [T* get()] *)
Definition counted_ptr_get (this : positive) : M ptr :=
  m_p <- get_m_p this ;;
  match m_p with
  | Some l =>
      c <- get_referenceCount l ;;
      if 1 <? c then
        temp <- T_clone l ;;
        c1 <- get_referenceCount l ;;
        set_referenceCount l (c1 - 1) ;;;
        set_m_p this (Some temp) ;;;
        set_referenceCount temp 1
      else ret tt
  | None => ret tt
  end ;;;
  get_m_p this.

(** [T& operator*() { return *m_p; }] and its const twin: the reference is
    the address of the held object; there is none behind a null pointer. *)
Definition counted_ptr_deref (this : positive) : M positive :=
  m_p <- get_m_p this ;;
  match m_p with
  | Some l => ret l
  | None => undefined
  end.

Definition counted_ptr_deref_const (this : positive) : M positive :=
  m_p <- get_m_p this ;;
  match m_p with
  | Some l => ret l
  | None => undefined
  end.

(** [T* operator->() { return get(); }] and
    [const T* operator->() const { return m_p; }] *)
Definition counted_ptr_arrow (this : positive) : M ptr := counted_ptr_get this.

Definition counted_ptr_arrow_const (this : positive) : M ptr := get_m_p this.

(** [counted_ptr<T> & operator=(const counted_ptr<T>& rhs)] *)
Definition counted_ptr_assign (this rhs : positive) : M unit :=
  if bool_decide (this = rhs) then ret tt
  else
    m_p <- get_m_p this ;;
    rhs_m_p <- get_m_p rhs ;;
    if negb (bool_decide (m_p = rhs_m_p)) then
      counted_ptr_unref this ;;;
      set_m_p this rhs_m_p ;;;
      match rhs_m_p with
      | Some l => incr_referenceCount l
      | None => ret tt
      end
    else ret tt.

(** ** vector_member_ptrs *)

(** [size_t] values are natural numbers: the only arithmetic on them is the
    [i++] of [resize], under the guard [i < m_size && i < newSize].  The
    pointer [m_ptr] to a [new member_ptr<T>[n]] array is the list of the
    addresses of its [n] slots. *)
Record vector_member_ptrs := mkVector {
  m_size : nat;
  m_ptr : list positive
}.

(** Modelled from the spec: the macro [CRYPTOPP_ASSERT] of trap.h, which is
    not in the header; a failed assertion is a fatal trap. *)
Definition CRYPTOPP_ASSERT (b : bool) : M unit :=
  if b then ret tt else λ _, Trap.

(** [new member_ptr<T>[n]]: [n] default-constructed slots, first to last
    (the allocation always succeeds). *)
Fixpoint new_member_ptr_array (n : nat) : M (list positive) :=
  match n with
  | O => ret []
  | S k =>
      slot <- member_ptr_ctor None ;;
      rest <- new_member_ptr_array k ;;
      ret (slot :: rest)
  end.

(** [delete [] arr]: the slots are destroyed last to first. *)
Fixpoint delete_member_ptr_array (arr : list positive) : M unit :=
  match arr with
  | [] => ret tt
  | slot :: rest =>
      delete_member_ptr_array rest ;;;
      member_ptr_dtor slot ;;;
      end_lifetime slot
  end.

(** [vector_member_ptrs(size_t size=0)
      : m_size(size), m_ptr(new member_ptr<T>[size]) {}] *)
Definition vector_member_ptrs_ctor (size : nat) : M vector_member_ptrs :=
  arr <- new_member_ptr_array size ;;
  ret (mkVector size arr).

(** [~vector_member_ptrs() {delete [] this->m_ptr;}] *)
Definition vector_member_ptrs_dtor (this : vector_member_ptrs) : M unit :=
  delete_member_ptr_array (m_ptr this).

(** [arr[i]]: the address of slot [i], which must exist. *)
Definition slot_at (arr : list positive) (i : nat) : M positive :=
  match arr !! i with
  | Some slot => ret slot
  | None => undefined
  end.

(** [member_ptr<T>& operator[](size_t index)] and its const twin *)
Definition vector_member_ptrs_index (this : vector_member_ptrs) (index : nat)
  : M positive :=
  CRYPTOPP_ASSERT (index <? m_size this)%nat ;;;
  slot_at (m_ptr this) index.

Definition vector_member_ptrs_index_const (this : vector_member_ptrs)
  (index : nat) : M positive :=
  CRYPTOPP_ASSERT (index <? m_size this)%nat ;;;
  slot_at (m_ptr this) index.

(** [size_t size() const {return this->m_size;}] *)
Definition vector_member_ptrs_size (this : vector_member_ptrs) : nat :=
  m_size this.

(** [for (size_t i=0; i<this->m_size && i<newSize; i++)
       newPtr[i].reset(this->m_ptr[i].release());] from index [i] on. *)
Fixpoint resize_loop (fuel : nat) (this : vector_member_ptrs)
  (newPtr : list positive) (newSize i : nat) : M unit :=
  if ((i <? m_size this) && (i <? newSize))%nat then
    match fuel with
    | O => λ _, OutOfFuel
    | S fuel' =>
        old_slot <- slot_at (m_ptr this) i ;;
        new_slot <- slot_at newPtr i ;;
        p <- member_ptr_release old_slot ;;
        member_ptr_reset new_slot p ;;;
        resize_loop fuel' this newPtr newSize (S i)
    end
  else ret tt.

(** [void resize(size_t newSize)]; the result is the updated [*this]. *)
Definition vector_member_ptrs_resize (this : vector_member_ptrs)
  (newSize : nat) : M vector_member_ptrs :=
  newPtr <- new_member_ptr_array newSize ;;
  resize_loop (m_size this) this newPtr newSize 0 ;;;
  delete_member_ptr_array (m_ptr this) ;;;
  ret (mkVector newSize newPtr).

(** ** The protocols in the words of their description

    The effect on the store of the steps that the description of the wrappers
    is made of; the code is compared with them below. *)

(** The object behind [p] is deleted (nothing for the null pointer). *)
Definition deleted (p : ptr) (s : state) : state :=
  match p with
  | Some l => mkState (delete l (objs s)) (l :: freed s) (cells s)
  | None => s
  end.

(** A sharer lets go of the object behind [held]: the count of the object
    goes down by one, and the object is deleted if the count reaches 0. *)
Definition released (held : ptr) (s : state) : state :=
  match held with
  | Some l =>
      match objs s !! l with
      | Some o =>
          if m_referenceCount o - 1 =? 0 then deleted held s
          else mkState (<[l:=mkT (payload o) (m_referenceCount o - 1)]> (objs s))
                 (freed s) (cells s)
      | None => s
      end
  | None => s
  end.

(** The wrapper [this] comes to share what [p] points to: it holds [p], and
    the count of the object behind [p] goes up by one. *)
Definition shared (this : positive) (p : ptr) (s : state) : state :=
  match p with
  | Some l =>
      match objs s !! l with
      | Some o =>
          mkState (<[l:=mkT (payload o) (m_referenceCount o + 1)]> (objs s))
            (freed s) (<[this:=Some l]> (cells s))
      | None => s
      end
  | None => mkState (objs s) (freed s) (<[this:=None]> (cells s))
  end.

(** The wrapper [this] adopts a new clone of the object at [r], and the count
    of the clone is 1. *)
Definition adopted_clone (this r : positive) (s : state) : state :=
  match objs s !! r with
  | Some o =>
      let p := fresh (dom (objs s) ∪ list_to_set (freed s)) in
      mkState (<[p:=mkT (payload o) 1]> (objs s)) (freed s)
        (<[this:=Some p]> (cells s))
  | None => s
  end.

(** The wrapper [this] adopts a new copy of the object behind [p], or null
    if [p] is null. *)
Definition adopted_copy (this : positive) (p : ptr) (s : state) : state :=
  match p with
  | Some l =>
      match objs s !! l with
      | Some o =>
          let q := fresh (dom (objs s) ∪ list_to_set (freed s)) in
          mkState (<[q:=o]> (objs s)) (freed s) (<[this:=Some q]> (cells s))
      | None => s
      end
  | None => mkState (objs s) (freed s) (<[this:=None]> (cells s))
  end.

(** ** Scenarios of the description, as programs *)

(** [counted_ptr<T> a(p); counted_ptr<T> b(a); a.get();] *)
Definition share_then_get (p : positive)
  : M (positive * positive * ptr) :=
  a <- counted_ptr_ctor (Some p) ;;
  b <- counted_ptr_copy_ctor a ;;
  r <- counted_ptr_get a ;;
  ret (a, b, r).

(** [ *w = o; return *other;] with the non-const [operator*] of [w] and the
    const one of [other]. *)
Definition write_then_read (w other : positive) (o : T) : M T :=
  r <- counted_ptr_deref w ;;
  store r o ;;;
  r' <- counted_ptr_deref_const other ;;
  load r'.

(** [value_ptr<T> a(v); value_ptr<T> b(a);] *)
Definition copy_of_new (v : T) : M (positive * positive) :=
  a <- value_ptr_ctor_obj v ;;
  b <- value_ptr_copy_ctor a ;;
  ret (a, b).

(** ** Configurations of counted_ptr wrappers *)

(** What a program does with [counted_ptr] wrappers: it makes an object,
    constructs a wrapper (from a raw pointer, from an object, from another
    wrapper), calls [attach], [operator=] or the mutable [get()], or lets a
    wrapper go out of scope.  A constructed wrapper gets an address of its
    own, which the later operations name. *)
Inductive op : Type :=
  | New (v : V)
  | CtorRaw (p : ptr)
  | CtorObj (r : positive)
  | CtorCopy (rhs : positive)
  | Attach (this r : positive)
  | Assign (this rhs : positive)
  | Get (this : positive)
  | Dtor (this : positive).

(** Modelled from the spec: the constructors of [T] belong to [T], which is
    not in the header; an object that is not yet in shared ownership has
    count 0, so [New v] makes an object with count 0. *)
Definition run_op (o : op) : M unit :=
  match o with
  | New v => op_new (mkT v 0) ;;; ret tt
  | CtorRaw p => counted_ptr_ctor p ;;; ret tt
  | CtorObj r => counted_ptr_ctor_obj r ;;; ret tt
  | CtorCopy rhs => counted_ptr_copy_ctor rhs ;;; ret tt
  | Attach this r => counted_ptr_attach this r
  | Assign this rhs => counted_ptr_assign this rhs
  | Get this => counted_ptr_get this ;;; ret tt
  | Dtor this => counted_ptr_dtor this ;;; end_lifetime this
  end.

Fixpoint run_ops (os : list op) : M unit :=
  match os with
  | [] => ret tt
  | o :: rest => run_op o ;;; run_ops rest
  end.

(** The number of wrappers among [c] that hold the address [l]. *)
Definition hold (c : gmap positive ptr) (l : positive) : nat :=
  size (filter (λ wp : positive * ptr, wp.2 = Some l) c).

Definition holders (s : state) (l : positive) : nat := hold (cells s) l.

(** The configurations a program builds from the empty store with the
    operations that [allowed] lets it apply. *)
Inductive reachable_by (allowed : state → op → Prop) : state → Prop :=
  | reachable_empty : reachable_by allowed (mkState ∅ [] ∅)
  | reachable_step (s s' : state) (o : op) :
      reachable_by allowed s →
      allowed s o →
      run_op o s = Done tt s' →
      reachable_by allowed s'.

(** Every use of the operations is allowed. *)
Definition any_use (s : state) (o : op) : Prop := True.

(** The raw pointer given to the constructor is an owning one: no wrapper
    holds the object yet. *)
Definition raw_owned (s : state) (o : op) : Prop :=
  match o with
  | CtorRaw (Some l) => holders s l = 0%nat
  | _ => True
  end.

(** The counts agree with the wrappers [c], no wrapper of [c] dangles, and
    the deleted addresses are deleted once and stay dead. *)
Definition consistent (c : gmap positive ptr) (s : state) : Prop :=
  (∀ l o, objs s !! l = Some o → m_referenceCount o = Z.of_nat (hold c l)) ∧
  (∀ w l, c !! w = Some (Some l) → is_Some (objs s !! l)) ∧
  NoDup (freed s) ∧
  (∀ l, l ∈ freed s → objs s !! l = None).

(** From [s] to [s'] no object is lost and no count goes down. *)
Definition grows (s s' : state) : Prop :=
  freed s' = freed s ∧
  ∀ l o, objs s !! l = Some o →
    ∃ o', objs s' !! l = Some o' ∧ m_referenceCount o ≤ m_referenceCount o'.

(** From [s] to [s'] at most one object is deleted, one whose count was 1,
    and every other counted object stays, with a count of at least 1. *)
Definition drops_at_one (s s' : state) : Prop :=
  (freed s' = freed s ∨
   ∃ l o, objs s !! l = Some o ∧ m_referenceCount o = 1 ∧
          freed s' = l :: freed s) ∧
  ∀ l o, objs s !! l = Some o → 1 ≤ m_referenceCount o →
    (∃ o', objs s' !! l = Some o' ∧ 1 ≤ m_referenceCount o') ∨
    (m_referenceCount o = 1 ∧ freed s' = l :: freed s).

(** ** member_ptr: dereference and member access *)

(** [T& operator*() { return *m_p; }] and its const twin: the reference is
    the address of the held object; there is none behind a null pointer. *)
Definition member_ptr_deref (this : positive) : M positive :=
  m_p <- get_m_p this ;;
  match m_p with
  | Some l => ret l
  | None => undefined
  end.

(** [T* operator->() { return m_p; }] and its const twin *)
Definition member_ptr_arrow (this : positive) : M ptr := get_m_p this.

(** ** clonable_ptr (derived from member_ptr) *)

(** Modelled from the spec: [T::Clone()] belongs to [T], which is not in the
    header; called on the object [obj], it produces a new, independently
    owned, value-equal copy. *)
Definition T_Clone (obj : T) : M positive := op_new obj.

(** [clonable_ptr(const T &obj) : member_ptr<T>(obj.Clone()) {}] *)
Definition clonable_ptr_ctor_obj (obj : T) : M positive :=
  p <- T_Clone obj ;; member_ptr_ctor (Some p).

(** [clonable_ptr(T *p = NULL) : member_ptr<T>(p) {}] *)
Definition clonable_ptr_ctor (p : ptr) : M positive := member_ptr_ctor p.

(** [rhs.m_p ? rhs.m_p->Clone() : NULL] *)
Definition clonable_ptr_dup (rhs : positive) : M ptr :=
  rhs_m_p <- get_m_p rhs ;;
  match rhs_m_p with
  | Some l => o <- load l ;; p <- T_Clone o ;; ret (Some p)
  | None => ret None
  end.

(** [clonable_ptr(const clonable_ptr<T>& rhs)
      : member_ptr<T>(rhs.m_p ? rhs.m_p->Clone() : NULL) {}] *)
Definition clonable_ptr_copy_ctor (rhs : positive) : M positive :=
  p <- clonable_ptr_dup rhs ;; member_ptr_ctor p.

(** [clonable_ptr<T>& operator=(const clonable_ptr<T>& rhs)] *)
Definition clonable_ptr_assign (this rhs : positive) : M unit :=
  if negb (bool_decide (this = rhs)) then
    old_p <- get_m_p this ;;
    p <- clonable_ptr_dup rhs ;;
    set_m_p this p ;;;
    op_delete old_p
  else ret tt.

(** ** Uses of the wrappers, as programs *)

(** [dst.reset(src.release());] *)
Definition member_ptr_transfer (dst src : positive) : M unit :=
  p <- member_ptr_release src ;;
  member_ptr_reset dst p.

(** [{ member_ptr<T> w(p); }]: constructed, then destroyed at the end of its
    scope. *)
Definition scoped_member_ptr (p : ptr) : M unit :=
  this <- member_ptr_ctor p ;;
  member_ptr_dtor this ;;;
  end_lifetime this.

(** [{ simple_ptr<T> w(p); }] *)
Definition scoped_simple_ptr (p : ptr) : M unit :=
  this <- simple_ptr_ctor p ;;
  simple_ptr_dtor this ;;;
  end_lifetime this.

(** [{ member_ptr<T> w(p); w.release(); }] *)
Definition scoped_released_ptr (p : ptr) : M ptr :=
  this <- member_ptr_ctor p ;;
  q <- member_ptr_release this ;;
  member_ptr_dtor this ;;;
  end_lifetime this ;;;
  ret q.

(** [{ value_ptr<T> w(rhs); }] and [{ clonable_ptr<T> w(rhs); }] *)
Definition scoped_value_copy (rhs : positive) : M unit :=
  this <- value_ptr_copy_ctor rhs ;;
  member_ptr_dtor this ;;;
  end_lifetime this.

Definition scoped_clonable_copy (rhs : positive) : M unit :=
  this <- clonable_ptr_copy_ctor rhs ;;
  member_ptr_dtor this ;;;
  end_lifetime this.

(** [a = b; return a == b;] on [value_ptr] wrappers *)
Definition assign_then_eq (T_eq : T → T → bool) (a b : positive) : M bool :=
  value_ptr_assign a b ;;;
  value_ptr_eq T_eq a b.

(** [{ counted_ptr<T> w(p); }], [{ counted_ptr<T> w(rhs); }] and
    [{ counted_ptr<T> w( *r); }] *)
Definition scoped_counted_raw (p : ptr) : M unit :=
  this <- counted_ptr_ctor p ;;
  counted_ptr_dtor this ;;;
  end_lifetime this.

Definition scoped_counted_copy (rhs : positive) : M unit :=
  this <- counted_ptr_copy_ctor rhs ;;
  counted_ptr_dtor this ;;;
  end_lifetime this.

Definition scoped_counted_obj (r : positive) : M unit :=
  this <- counted_ptr_ctor_obj r ;;
  counted_ptr_dtor this ;;;
  end_lifetime this.

(** [ *w.get() = o; return *other;] with the mutable [get()] of [w] and the
    const [operator*] of [other]. *)
Definition get_write_then_read (w other : positive) (o : T) : M T :=
  p <- counted_ptr_get w ;;
  match p with
  | Some l => store l o
  | None => undefined
  end ;;;
  r <- counted_ptr_deref_const other ;;
  load r.

(** [v[i].reset(p); return v[j].get();] *)
Definition slot_reset_then_get (v : vector_member_ptrs) (i : nat) (p : ptr)
  (j : nat) : M ptr :=
  slot <- vector_member_ptrs_index v i ;;
  member_ptr_reset slot p ;;;
  slot' <- vector_member_ptrs_index_const v j ;;
  member_ptr_get slot'.

(** [{ vector_member_ptrs<T> v(size); }] *)
Definition scoped_vector (size : nat) : M unit :=
  v <- vector_member_ptrs_ctor size ;;
  vector_member_ptrs_dtor v.

End SmartPtr.

(** * Concrete stores

    Objects with an integer payload; two objects are [==] when their payloads
    are the same integer. *)

Definition eq_payload (a b : T (V:=Z)) : bool := payload a =? payload b.

(** One wrapper, at address 1, holds the object at address 1. *)
Definition s_one : state (V:=Z) :=
  mkState {[1%positive := mkT 7 1]} [] {[1%positive := Some 1%positive]}.

(** The wrappers at 1 and 2 share the object at address 1. *)
Definition s_two : state (V:=Z) :=
  mkState {[1%positive := mkT 7 2]} []
    {[1%positive := Some 1%positive; 2%positive := Some 1%positive]}.

(** Wrapper 1 holds object 1; the object at address 2 is in no wrapper. *)
Definition s_free : state (V:=Z) :=
  mkState {[1%positive := mkT 7 1; 2%positive := mkT 9 0]} []
    {[1%positive := Some 1%positive]}.

(** Wrapper 1 holds object 1 and wrapper 2 holds object 2. *)
Definition s_pair : state (V:=Z) :=
  mkState {[1%positive := mkT 7 1; 2%positive := mkT 9 1]} []
    {[1%positive := Some 1%positive; 2%positive := Some 2%positive]}.

(** The slots at 1, 2 and 3 hold the objects at 1, 2 and 3. *)
Definition s_slots : state (V:=Z) :=
  mkState {[1%positive := mkT 10 0; 2%positive := mkT 20 0;
            3%positive := mkT 30 0]} []
    {[1%positive := Some 1%positive; 2%positive := Some 2%positive;
      3%positive := Some 3%positive]}.

(** Wrapper 1 holds null. *)
Definition s_null : state (V:=Z) :=
  mkState ∅ [] {[1%positive := None]}.

(** The object at 1 was adopted twice through the raw-pointer constructor. *)
Definition s_twice : state (V:=Z) :=
  mkState {[1%positive := mkT 7 1]} []
    {[1%positive := Some 1%positive; 2%positive := Some 1%positive]}.

(** * Properties *)

Section Properties.

Context {V : Type}.

#[local] Abbreviation T := (@T V) (only parsing).
#[local] Abbreviation state := (@state V) (only parsing).
#[local] Abbreviation op := (@op V) (only parsing).
#[local] Abbreviation M := (@M V) (only parsing).

(** ** Running the code on a known store *)

Ltac unfold_ops :=
  unfold vector_member_ptrs_index, vector_member_ptrs_index_const, slot_at,
    CRYPTOPP_ASSERT,
    value_ptr_ctor_obj, value_ptr_ctor, value_ptr_copy_ctor, value_ptr_dup,
    value_ptr_eq, value_ptr_assign,
    counted_ptr_ctor_obj, counted_ptr_arrow, counted_ptr_arrow_const,
    counted_ptr_ctor, counted_ptr_copy_ctor, counted_ptr_dtor,
    counted_ptr_attach, counted_ptr_get_const,
    counted_ptr_get, counted_ptr_deref, counted_ptr_deref_const,
    counted_ptr_assign, counted_ptr_unref, incr_referenceCount,
    simple_ptr_ctor, simple_ptr_dtor,
    member_ptr_ctor, member_ptr_dtor, member_ptr_get, member_ptr_release,
    member_ptr_reset,
    T_clone, get_referenceCount, set_referenceCount, load, store,
    op_new, op_delete, get_m_p, set_m_p, init_m_p, end_lifetime,
    bind, ret, undefined.

Ltac lookups :=
  repeat first
    [ progress cbn [objs freed cells payload m_referenceCount]
    | rewrite lookup_insert_eq
    | rewrite lookup_delete_eq
    | rewrite lookup_insert_ne by congruence
    | rewrite lookup_delete_ne by congruence
    | match goal with
      | H : ?m !! ?k = _ |- context [?m !! ?k] => rewrite H
      end ].

Ltac run := unfold_ops; lookups.

(** Two maps built from the same inserts and deletes are equal. *)
Ltac map_ext :=
  let k := fresh "k" in
  apply map_eq; intros k;
  repeat (rewrite lookup_insert || rewrite lookup_delete);
  repeat case_decide; simplify_eq; try done.

Lemma bind_done {A B} (m : M A) (k : A → M B) (s s' : state) (a : A) :
  m s = Done a s' → bind m k s = k a s'.
Proof. unfold bind. by intros ->. Qed.

Lemma bind_ret_done {A B} (m : M A) (b c : B) (s s' : state) :
  bind m (λ _, ret b) s = Done c s' → ∃ a, m s = Done a s'.
Proof.
  unfold bind, ret. destruct (m s) as [a s1| | |]; [|done..].
  intros [= _ <-]. eauto.
Qed.

Lemma get_m_p_live (s : state) (this : positive) (p : ptr) :
  cells s !! this = Some p → get_m_p this s = Done p s.
Proof. unfold get_m_p. by intros ->. Qed.

Lemma state_eq (s : state) o f c :
  objs s = o → freed s = f → cells s = c → s = mkState o f c.
Proof. destruct s; simpl; congruence. Qed.

Lemma fresh_obj_unused (s : state) :
  objs s !! fresh (dom (objs s) ∪ list_to_set (freed s) : gset positive) = None.
Proof.
  apply not_elem_of_dom. intros Hin.
  apply (is_fresh (dom (objs s) ∪ list_to_set (freed s) : gset positive)).
  set_solver.
Qed.

Lemma fresh_obj_not_freed (s : state) :
  fresh (dom (objs s) ∪ list_to_set (freed s) : gset positive) ∉ freed s.
Proof.
  intros Hin.
  apply (is_fresh (dom (objs s) ∪ list_to_set (freed s) : gset positive)).
  set_solver.
Qed.

Lemma fresh_cell_unused (s : state) :
  cells s !! fresh (dom (cells s)) = None.
Proof. apply not_elem_of_dom, is_fresh. Qed.

(** ** member_ptr::release and simple_ptr::~simple_ptr *)

(** C5. A [member_ptr] that holds [p]: [release()] returns [p] and leaves
    null in the wrapper, and nothing else changes; the destructor then runs
    on the null pointer and frees nothing, so [p] stays live and the log of
    deletes is as before.  A [simple_ptr] that holds [p] (null or live): its
    destructor deletes [p] and leaves null, and a second run of the destructor
    on the same storage changes nothing: [p] is in the log once. *)
Theorem release_and_double_destruction (s : state) (this : positive) (p : ptr) :
  cells s !! this = Some p →
  let released := mkState (objs s) (freed s) (<[this:=None]> (cells s)) in
  let destroyed :=
    match p with
    | Some l =>
        mkState (delete l (objs s)) (l :: freed s) (<[this:=None]> (cells s))
    | None => released
    end in
  member_ptr_release this s = Done p released ∧
  member_ptr_dtor this released = Done tt released ∧
  ((∀ l, p = Some l → is_Some (objs s !! l)) →
   simple_ptr_dtor this s = Done tt destroyed ∧
   simple_ptr_dtor this destroyed = Done tt destroyed).
Proof.
  intros Hcell released destroyed. subst released destroyed.
  split; [by run|]. split; [by run|].
  intros Hlive. destruct p as [l|].
  - destruct (Hlive l eq_refl) as [o Ho]. split; run; [done|].
    by rewrite insert_insert_eq.
  - split; run; [done|]. by rewrite insert_insert_eq.
Qed.

(** ** vector_member_ptrs::operator[] *)

(** C9. In a vector whose array has [m_size] slots, both forms of
    [operator[]] stop in the assertion trap when [index >= size()], and when
    [index < size()] they return the address of the slot at [index] and leave
    the store as it was. *)
Theorem index_traps_out_of_range (s : state) (this : vector_member_ptrs)
  (index : nat) :
  length (m_ptr this) = m_size this →
  ((vector_member_ptrs_size this ≤ index)%nat →
   vector_member_ptrs_index this index s = Trap ∧
   vector_member_ptrs_index_const this index s = Trap) ∧
  ((index < vector_member_ptrs_size this)%nat →
   ∃ slot, m_ptr this !! index = Some slot ∧
     vector_member_ptrs_index this index s = Done slot s ∧
     vector_member_ptrs_index_const this index s = Done slot s).
Proof.
  intros Hlen. unfold vector_member_ptrs_size. split; intros Hi.
  - run. by rewrite (proj2 (Nat.ltb_ge _ _) Hi).
  - destruct (lookup_lt_is_Some_2 (m_ptr this) index) as [slot Hslot]; [lia|].
    exists slot. run.
    by rewrite (proj2 (Nat.ltb_lt _ _) Hi).
Qed.

(** ** counted_ptr::operator= on aliased wrappers *)

(** C10. Two distinct wrappers that hold the same pointer: [a = b] changes
    nothing in the store (no count, no wrapper, nothing deleted), as the
    pointers are compared before anything is released. *)
Theorem assign_aliased_is_noop (s : state) (a b : positive) (p : ptr) :
  a ≠ b →
  cells s !! a = Some p →
  cells s !! b = Some p →
  counted_ptr_assign a b s = Done tt s.
Proof.
  intros Hab Ha Hb. unfold counted_ptr_assign.
  rewrite bool_decide_eq_false_2 by done.
  rewrite (bind_done _ _ _ _ _ (get_m_p_live s a p Ha)).
  rewrite (bind_done _ _ _ _ _ (get_m_p_live s b p Hb)).
  by rewrite bool_decide_eq_true_2.
Qed.

(** ** counted_ptr: attach, get, operator= *)

Lemma unref_released (s : state) (this : positive) (held : ptr) :
  cells s !! this = Some held →
  (∀ l, held = Some l → is_Some (objs s !! l)) →
  counted_ptr_unref this s = Done tt (released held s).
Proof.
  intros Hcell Hlive. destruct held as [l|]; [|by run].
  destruct (Hlive l eq_refl) as [o Ho]. unfold released, deleted. run.
  destruct (m_referenceCount o - 1 =? 0); lookups; [|done].
  by rewrite delete_insert_eq.
Qed.

Lemma released_cells (held : ptr) (s : state) :
  cells (released held s) = cells s.
Proof.
  unfold released, deleted. destruct held as [l|]; [|done].
  destruct (objs s !! l) as [o|]; [|done].
  by destruct (m_referenceCount o - 1 =? 0).
Qed.

Lemma attach_effect (s : state) (this r : positive) (held : ptr) (o : T) :
  cells s !! this = Some held →
  (∀ l, held = Some l → is_Some (objs s !! l)) →
  objs (released held s) !! r = Some o →
  counted_ptr_attach this r s
    = Done tt (if m_referenceCount o =? 0
               then adopted_clone this r (released held s)
               else shared this (Some r) (released held s)).
Proof.
  intros Hcell Hlive Hr.
  pose proof (unref_released s this held Hcell Hlive) as Hun.
  pose proof (released_cells held s) as Hc.
  unfold counted_ptr_attach. rewrite (bind_done _ _ _ _ _ Hun).
  set (s1 := released held s) in *.
  assert (cells s1 !! this = Some held) as Hcell1 by (by rewrite Hc).
  pose proof (fresh_obj_unused s1) as Hfresh.
  unfold adopted_clone, shared. rewrite Hr. cbn zeta.
  set (p := fresh _) in *.
  assert (p ≠ r) as Hpr by congruence.
  run. destruct (m_referenceCount o =? 0); lookups; [|done].
  by rewrite insert_insert_eq.
Qed.

(** C3 (amended). [w.attach(r)] is: release what [w] held (count down by one,
    delete at 0); then, with [r] an object of the store that results (so not
    an object that [w] alone held), adopt a new clone of [r] with count 1 if
    the count of [r] is 0 ([r] is not adopted and not changed), and otherwise
    hold [r] and add one to its count.  Construction from a value is the same
    on a new wrapper that holds null. *)
Theorem attach_clones_unshared_shares_shared :
  (∀ (s : state) (this r : positive) (held : ptr) (o : T),
     cells s !! this = Some held →
     (∀ l, held = Some l → is_Some (objs s !! l)) →
     objs (released held s) !! r = Some o →
     counted_ptr_unref this s = Done tt (released held s) ∧
     (m_referenceCount o = 0 →
      counted_ptr_attach this r s
        = Done tt (adopted_clone this r (released held s)) ∧
      ∃ p, cells (adopted_clone this r (released held s)) !! this
             = Some (Some p) ∧
           p ≠ r ∧ objs (released held s) !! p = None ∧
           objs (adopted_clone this r (released held s)) !! p
             = Some (mkT (payload o) 1) ∧
           objs (adopted_clone this r (released held s)) !! r = Some o) ∧
     (m_referenceCount o ≠ 0 →
      counted_ptr_attach this r s
        = Done tt (shared this (Some r) (released held s)) ∧
      cells (shared this (Some r) (released held s)) !! this
        = Some (Some r) ∧
      objs (shared this (Some r) (released held s)) !! r
        = Some (mkT (payload o) (m_referenceCount o + 1)))) ∧
  (∀ (s : state) (r : positive) (o : T),
     objs s !! r = Some o →
     let this := fresh (dom (cells s)) in
     let s0 := mkState (objs s) (freed s) (<[this:=None]> (cells s)) in
     cells s !! this = None ∧
     counted_ptr_ctor_obj r s
       = Done this (if m_referenceCount o =? 0 then adopted_clone this r s0
                    else shared this (Some r) s0)).
Proof.
  split.
  - intros s this r held o Hcell Hlive Hr.
    pose proof (attach_effect s this r held o Hcell Hlive Hr) as Hatt.
    split; [by apply unref_released|].
    set (s1 := released held s) in *.
    pose proof (fresh_obj_unused s1) as Hfresh.
    split; intros Hcount.
    + rewrite (proj2 (Z.eqb_eq _ _) Hcount) in Hatt. split; [done|].
      unfold adopted_clone. rewrite Hr. cbn zeta.
      set (p := fresh _) in *.
      assert (p ≠ r) as Hpr by congruence.
      exists p. by lookups.
    + rewrite (proj2 (Z.eqb_neq _ _) Hcount) in Hatt. split; [done|].
      unfold shared. rewrite Hr. by lookups.
  - intros s r o Hr this s0. split; [apply fresh_cell_unused|].
    subst s0 this. unfold adopted_clone, shared. cbn [objs freed cells].
    rewrite Hr. run. destruct (m_referenceCount o =? 0); lookups.
    + by rewrite insert_insert_eq, insert_insert_eq.
    + by rewrite insert_insert_eq.
Qed.

Lemma counted_ptr_ctor_live (s : state) (p : positive) (o : T) :
  objs s !! p = Some o →
  counted_ptr_ctor (Some p) s
    = Done (fresh (dom (cells s)))
        (mkState (<[p:=mkT (payload o) 1]> (objs s)) (freed s)
           (<[fresh (dom (cells s)):=Some p]> (cells s))).
Proof. intros Hp. by run. Qed.

Lemma counted_ptr_ctor_null (s : state) :
  counted_ptr_ctor None s
    = Done (fresh (dom (cells s)))
        (mkState (objs s) (freed s) (<[fresh (dom (cells s)):=None]> (cells s))).
Proof. by run. Qed.

Lemma counted_ptr_copy_ctor_shared (s : state) (rhs : positive) (p : ptr) :
  cells s !! rhs = Some p →
  (∀ l, p = Some l → is_Some (objs s !! l)) →
  counted_ptr_copy_ctor rhs s
    = Done (fresh (dom (cells s))) (shared (fresh (dom (cells s))) p s).
Proof.
  intros Hrhs Hlive. unfold shared. destruct p as [l|]; [|by run].
  destruct (Hlive l eq_refl) as [o Ho]. by run.
Qed.

Lemma get_shared (s : state) (this l : positive) (o : T) :
  cells s !! this = Some (Some l) →
  objs s !! l = Some o →
  1 < m_referenceCount o →
  counted_ptr_get this s
    = Done (Some (fresh (dom (objs s) ∪ list_to_set (freed s))))
        (mkState
           (<[fresh (dom (objs s) ∪ list_to_set (freed s)):=mkT (payload o) 1]>
              (<[l:=mkT (payload o) (m_referenceCount o - 1)]> (objs s)))
           (freed s)
           (<[this:=Some (fresh (dom (objs s) ∪ list_to_set (freed s)))]>
              (cells s))).
Proof.
  intros Hcell Hobj Hcount.
  pose proof (fresh_obj_unused s) as Hfresh.
  set (temp := fresh _) in *.
  assert (temp ≠ l) as Hne by congruence.
  run. rewrite (proj2 (Z.ltb_lt _ _) Hcount). subst temp. lookups.
  f_equal. f_equal. map_ext.
Qed.

Lemma get_unshared (s : state) (this l : positive) (o : T) :
  cells s !! this = Some (Some l) →
  objs s !! l = Some o →
  m_referenceCount o ≤ 1 →
  counted_ptr_get this s = Done (Some l) s.
Proof.
  intros Hcell Hobj Hcount. run.
  rewrite (proj2 (Z.ltb_ge _ _) Hcount). by lookups.
Qed.

(** C1. On a wrapper that holds a live object: with a count above 1, the
    mutable [get()] makes a clone at a new address, takes one off the count of
    the original, makes the wrapper hold the clone with count 1 and returns
    the clone; with count 1 it returns the held pointer and the store is as
    before.  After [a] is built from a raw pointer and [b] copied from [a],
    [a.get()] leaves [a] on a new clone with count 1 and [b] on the original
    with count 1. *)
Theorem get_clones_when_shared :
  (∀ (s : state) (this l : positive) (o : T),
     cells s !! this = Some (Some l) →
     objs s !! l = Some o →
     (1 < m_referenceCount o →
      let temp := fresh (dom (objs s) ∪ list_to_set (freed s)) in
      temp ≠ l ∧ objs s !! temp = None ∧
      counted_ptr_get this s
        = Done (Some temp)
            (mkState
               (<[temp:=mkT (payload o) 1]>
                  (<[l:=mkT (payload o) (m_referenceCount o - 1)]> (objs s)))
               (freed s) (<[this:=Some temp]> (cells s)))) ∧
     (m_referenceCount o = 1 → counted_ptr_get this s = Done (Some l) s)) ∧
  (∀ (s : state) (p : positive) (o : T),
     objs s !! p = Some o →
     ∃ a b temp s',
       share_then_get p s = Done (a, b, Some temp) s' ∧
       a ≠ b ∧ temp ≠ p ∧ objs s !! temp = None ∧
       cells s' !! a = Some (Some temp) ∧
       cells s' !! b = Some (Some p) ∧
       objs s' !! temp = Some (mkT (payload o) 1) ∧
       objs s' !! p = Some (mkT (payload o) 1) ∧
       freed s' = freed s).
Proof.
  split.
  - intros s this l o Hcell Hobj. split.
    + intros Hcount temp. pose proof (fresh_obj_unused s) as Hfresh.
      split; [subst temp; congruence|]. split; [done|].
      by apply get_shared.
    + intros Hcount. apply (get_unshared s this l o); [done..|lia].
  - intros s p o Hp. unfold share_then_get.
    rewrite (bind_done _ _ _ _ _ (counted_ptr_ctor_live s p o Hp)).
    set (a := fresh (dom (cells s))).
    set (s1 := mkState _ _ _).
    assert (cells s1 !! a = Some (Some p)) as Ha1 by (subst s1; by lookups).
    assert (objs s1 !! p = Some (mkT (payload o) 1)) as Hp1
      by (subst s1; by lookups).
    rewrite (bind_done _ _ _ _ _
      (counted_ptr_copy_ctor_shared s1 a (Some p) Ha1
         ltac:(intros ? [= <-]; eauto))).
    set (b := fresh (dom (cells s1))).
    pose proof (fresh_cell_unused s1) as Hb. fold b in Hb.
    assert (a ≠ b) as Hab by congruence.
    unfold shared. rewrite Hp1. cbn [payload m_referenceCount].
    set (s2 := mkState _ _ _).
    assert (cells s2 !! a = Some (Some p)) as Ha2 by (subst s2; by lookups).
    assert (objs s2 !! p = Some (mkT (payload o) (1 + 1))) as Hp2
      by (subst s2; by lookups).
    rewrite (bind_done _ _ _ _ _
      (get_shared s2 a p _ Ha2 Hp2 ltac:(simpl; lia))).
    pose proof (fresh_obj_unused s2) as Hfresh.
    set (temp := fresh (dom (objs s2) ∪ list_to_set (freed s2))) in *.
    assert (temp ≠ p) as Hne by congruence.
    eexists a, b, temp, _. split; [reflexivity|].
    subst s2 s1. cbn [objs freed cells] in *.
    rewrite !lookup_insert_ne in Hfresh by done.
    repeat split; try done; by lookups.
Qed.

(** C8. On a wrapper whose object has a count above 1: the non-const
    [operator->] is the mutable [get()], so it returns a new clone and makes
    the wrapper hold it; the non-const [operator*] returns the shared object
    itself and changes nothing, so a value written through it is the value
    every other holder of the object reads. *)
Theorem arrow_clones_but_deref_shares (s : state) (this l : positive) (o : T) :
  cells s !! this = Some (Some l) →
  objs s !! l = Some o →
  1 < m_referenceCount o →
  (counted_ptr_arrow this s = counted_ptr_get this s ∧
   ∃ temp s', counted_ptr_arrow this s = Done (Some temp) s' ∧
     temp ≠ l ∧ objs s !! temp = None ∧
     cells s' !! this = Some (Some temp) ∧
     objs s' !! temp = Some (mkT (payload o) 1)) ∧
  counted_ptr_deref this s = Done l s ∧
  (∀ (other : positive) (o' : T),
     cells s !! other = Some (Some l) →
     write_then_read this other o' s
       = Done o' (mkState (<[l:=o']> (objs s)) (freed s) (cells s))).
Proof.
  intros Hcell Hobj Hcount. split; [|split].
  - split; [done|]. unfold counted_ptr_arrow.
    rewrite (get_shared s this l o Hcell Hobj Hcount).
    pose proof (fresh_obj_unused s) as Hfresh.
    eexists _, _. split; [reflexivity|].
    repeat split; try done; [congruence|by lookups..].
  - by run.
  - intros other o' Hother. unfold write_then_read. by run.
Qed.

(** ** Assignment: counted_ptr::operator= and value_ptr::operator= *)

Lemma shared_after_released_same (s : state) (l : positive) (o : T)
  (this : positive) :
  cells s !! this = Some (Some l) →
  objs s !! l = Some o →
  m_referenceCount o ≠ 1 →
  shared this (Some l) (released (Some l) s) = s.
Proof.
  intros Hcell Hobj Hcount. unfold released. rewrite Hobj.
  rewrite (proj2 (Z.eqb_neq (m_referenceCount o - 1) 0)) by lia.
  unfold shared. lookups. symmetry. apply state_eq; cbn [objs freed cells].
  - rewrite insert_insert_eq. symmetry. apply insert_id. rewrite Hobj.
    destruct o as [v c]. cbn. do 2 f_equal. lia.
  - done.
  - symmetry. by apply insert_id.
Qed.

Lemma assign_same_pointer (s : state) (a b : positive) (p : ptr) :
  a ≠ b →
  cells s !! a = Some p →
  cells s !! b = Some p →
  counted_ptr_assign a b s = Done tt s.
Proof.
  intros Hab Ha Hb. unfold counted_ptr_assign.
  rewrite bool_decide_eq_false_2 by done. run.
  by rewrite bool_decide_eq_true_2.
Qed.

Lemma released_other (s : state) (pa : ptr) (lb : positive) (ob : T) :
  (∀ l, pa = Some l → is_Some (objs s !! l)) →
  pa ≠ Some lb →
  objs s !! lb = Some ob →
  objs (released pa s) !! lb = Some ob.
Proof.
  intros Hla Hne Hob. unfold released, deleted. destruct pa as [la|]; [|done].
  destruct (Hla la eq_refl) as [oa Hoa]. rewrite Hoa.
  assert (la ≠ lb) by congruence.
  by destruct (m_referenceCount oa - 1 =? 0); lookups.
Qed.

Lemma assign_effect (s : state) (a b : positive) (pa pb : ptr) :
  a ≠ b →
  cells s !! a = Some pa →
  cells s !! b = Some pb →
  (∀ l, pa = Some l → is_Some (objs s !! l)) →
  (∀ l, pb = Some l → is_Some (objs s !! l)) →
  pa ≠ pb →
  counted_ptr_assign a b s = Done tt (shared a pb (released pa s)).
Proof.
  intros Hab Ha Hb Hla Hlb Hne. unfold counted_ptr_assign.
  rewrite bool_decide_eq_false_2 by done.
  rewrite (bind_done _ _ _ _ _ (get_m_p_live s a pa Ha)).
  rewrite (bind_done _ _ _ _ _ (get_m_p_live s b pb Hb)).
  rewrite bool_decide_eq_false_2 by done. cbn [negb].
  rewrite (bind_done _ _ _ _ _ (unref_released s a pa Ha Hla)).
  pose proof (released_cells pa s) as Hc.
  assert (cells (released pa s) !! a = Some pa) as Ha1 by (by rewrite Hc).
  unfold shared. destruct pb as [lb|]; [|by run].
  destruct (Hlb lb eq_refl) as [ob Hob].
  rewrite (released_other s pa lb ob Hla Hne Hob).
  pose proof (released_other s pa lb ob Hla Hne Hob) as Hob1.
  set (s1 := released pa s) in *. by run.
Qed.

(** C7. [a = a] changes nothing.  For distinct wrappers, [a = b] has the net
    effect of releasing what [a] held (count down by one, delete at 0) and
    then sharing what [b] holds ([a] holds it, count up by one); when [a]
    and [b] already hold the same object, this is for an object whose count
    is not 1 (it has the two holders).  [value_ptr] assignment to itself
    changes nothing, so the held object survives; otherwise the left side
    first adopts a new copy of the right side's object (or null) and only
    then is its old object deleted. *)
Theorem assignment_releases_then_shares :
  (∀ (s : state) (a : positive), counted_ptr_assign a a s = Done tt s) ∧
  (∀ (s : state) (a b : positive) (pa pb : ptr),
     a ≠ b →
     cells s !! a = Some pa →
     cells s !! b = Some pb →
     (∀ l, pa = Some l → is_Some (objs s !! l)) →
     (∀ l, pb = Some l → is_Some (objs s !! l)) →
     (∀ l o, pa = Some l → pb = Some l → objs s !! l = Some o →
             m_referenceCount o ≠ 1) →
     counted_ptr_assign a b s = Done tt (shared a pb (released pa s))) ∧
  (∀ (s : state) (a : positive), value_ptr_assign a a s = Done tt s) ∧
  (∀ (s : state) (a b : positive) (pa pb : ptr),
     a ≠ b →
     cells s !! a = Some pa →
     cells s !! b = Some pb →
     (∀ l, pa = Some l → is_Some (objs s !! l)) →
     (∀ l, pb = Some l → is_Some (objs s !! l)) →
     value_ptr_assign a b s = Done tt (deleted pa (adopted_copy a pb s)) ∧
     (∀ l, pa = Some l →
           cells (adopted_copy a pb s) !! a ≠ Some (Some l) ∧
           is_Some (objs (adopted_copy a pb s) !! l))).
Proof.
  split; [|split; [|split]].
  - intros s a. unfold counted_ptr_assign. by rewrite bool_decide_eq_true_2.
  - intros s a b pa pb Hab Ha Hb Hla Hlb Hcount.
    destruct (decide (pa = pb)) as [->|Hne].
    + rewrite (assign_same_pointer s a b pb Hab Ha Hb).
      destruct pb as [l|].
      * destruct (Hlb l eq_refl) as [o Ho].
        by rewrite (shared_after_released_same s l o a Ha Ho
                      (Hcount l o eq_refl eq_refl Ho)).
      * cbn. f_equal. apply state_eq; [done..|]. symmetry. by apply insert_id.
    + by apply assign_effect.
  - intros s a. unfold value_ptr_assign. by rewrite bool_decide_eq_true_2.
  - intros s a b pa pb Hab Ha Hb Hla Hlb.
    pose proof (fresh_obj_unused s) as Hfresh.
    split.
    + unfold value_ptr_assign. rewrite bool_decide_eq_false_2 by done.
      cbn [negb]. unfold adopted_copy, deleted.
      destruct pb as [lb|].
      * destruct (Hlb lb eq_refl) as [ob Hob]. run.
        destruct pa as [la|]; [|done].
        destruct (Hla la eq_refl) as [oa Hoa].
        assert (fresh (dom (objs s) ∪ list_to_set (freed s)) ≠ la)
          by congruence.
        by lookups.
      * run. destruct pa as [la|]; [|done].
        destruct (Hla la eq_refl) as [oa Hoa]. by lookups.
    + intros la ->. destruct (Hla la eq_refl) as [oa Hoa].
      unfold adopted_copy. destruct pb as [lb|].
      * destruct (Hlb lb eq_refl) as [ob Hob]. rewrite Hob.
        assert (fresh (dom (objs s) ∪ list_to_set (freed s)) ≠ la)
          by congruence.
        lookups. split; [congruence|eauto].
      * lookups. split; [congruence|eauto].
Qed.

(** ** value_ptr: copies and equality *)

(** C6. For every value [v]: a [value_ptr] built from [v] and a copy of that
    wrapper are two wrappers that hold distinct addresses, each with an
    object equal to [v]; [a == b] is [T]'s [==] on two copies of [v], so it
    holds when that [==] holds of [v] and [v]; a write to the object of one
    leaves the object of the other as it was.  A copy of a wrapper that holds
    null holds null.  [operator==] is true iff both wrappers hold null or
    both hold objects that [T]'s [==] finds equal. *)
Theorem copies_are_independent_and_equal (T_eq : T → T → bool) :
  (∀ (s : state) (v : T),
     ∃ a b la lb s',
       copy_of_new v s = Done (a, b) s' ∧
       a ≠ b ∧ la ≠ lb ∧
       cells s' !! a = Some (Some la) ∧
       cells s' !! b = Some (Some lb) ∧
       objs s' !! la = Some v ∧
       objs s' !! lb = Some v ∧
       value_ptr_eq T_eq a b s' = Done (T_eq v v) s' ∧
       (T_eq v v = true → value_ptr_eq T_eq a b s' = Done true s') ∧
       (∀ v', ∃ s'', store la v' s' = Done tt s'' ∧
                objs s'' !! la = Some v' ∧ objs s'' !! lb = Some v) ∧
       (∀ v', ∃ s'', store lb v' s' = Done tt s'' ∧
                objs s'' !! lb = Some v' ∧ objs s'' !! la = Some v)) ∧
  (∀ (s : state) (rhs : positive),
     cells s !! rhs = Some None →
     value_ptr_copy_ctor rhs s
       = Done (fresh (dom (cells s)))
           (mkState (objs s) (freed s)
              (<[fresh (dom (cells s)):=None]> (cells s)))) ∧
  (∀ (s : state) (a b : positive) (pa pb : ptr),
     cells s !! a = Some pa →
     cells s !! b = Some pb →
     (∀ l, pa = Some l → is_Some (objs s !! l)) →
     (∀ l, pb = Some l → is_Some (objs s !! l)) →
     ∃ r : bool,
       value_ptr_eq T_eq a b s = Done r s ∧
       (r = true ↔
        (pa = None ∧ pb = None) ∨
        (∃ la lb oa ob, pa = Some la ∧ pb = Some lb ∧
           objs s !! la = Some oa ∧ objs s !! lb = Some ob ∧
           T_eq oa ob = true))).
Proof.
  split; [|split].
  - intros s v. unfold copy_of_new.
    set (la := fresh (dom (objs s) ∪ list_to_set (freed s))).
    set (a := fresh (dom (cells s))).
    set (s1 := mkState (<[la:=v]> (objs s)) (freed s)
                 (<[a:=Some la]> (cells s))).
    assert (value_ptr_ctor_obj v s = Done a s1) as H1 by (by run).
    rewrite (bind_done _ _ _ _ _ H1).
    set (lb := fresh (dom (objs s1) ∪ list_to_set (freed s1))).
    set (b := fresh (dom (cells s1))).
    pose proof (fresh_obj_unused s1) as Hlb. fold lb in Hlb.
    pose proof (fresh_cell_unused s1) as Hb. fold b in Hb.
    assert (cells s1 !! a = Some (Some la)) as Ha1 by (subst s1; by lookups).
    assert (objs s1 !! la = Some v) as Hla1 by (subst s1; by lookups).
    assert (a ≠ b) as Hab by congruence.
    assert (la ≠ lb) as Hlab by congruence.
    set (s2 := mkState (<[lb:=v]> (objs s1)) (freed s1)
                 (<[b:=Some lb]> (cells s1))).
    assert (value_ptr_copy_ctor a s1 = Done b s2) as H2 by (by run).
    rewrite (bind_done _ _ _ _ _ H2).
    assert (cells s2 !! a = Some (Some la)) as Ha2 by (subst s2; by lookups).
    assert (cells s2 !! b = Some (Some lb)) as Hb2 by (subst s2; by lookups).
    assert (objs s2 !! la = Some v) as Hla2 by (subst s2; by lookups).
    assert (objs s2 !! lb = Some v) as Hlb2 by (subst s2; by lookups).
    assert (value_ptr_eq T_eq a b s2 = Done (T_eq v v) s2) as Heq by (by run).
    exists a, b, la, lb, s2. repeat split; try done.
    + intros Hrefl. by rewrite Heq, Hrefl.
    + intros v'. eexists. split; [by run|]. by lookups.
    + intros v'. eexists. split; [by run|]. by lookups.
  - intros s rhs Hrhs. by run.
  - intros s a b pa pb Ha Hb Hla Hlb.
    destruct pa as [la|], pb as [lb|].
    + destruct (Hla la eq_refl) as [oa Hoa].
      destruct (Hlb lb eq_refl) as [ob Hob].
      exists (T_eq oa ob). split; [by run|]. split.
      * intros Heq. right. by exists la, lb, oa, ob.
      * intros [[? _]|(la' & lb' & oa' & ob' & ? & ? & Hoa' & Hob' & Heq)];
          [done|]. simplify_eq. congruence.
    + exists false. split; [by run|].
      split; [done|]. intros [[? _]|(? & ? & ? & ? & ? & ? & _)]; done.
    + exists false. split; [by run|].
      split; [done|]. intros [[_ ?]|(? & ? & ? & ? & ? & ? & _)]; done.
    + exists true. split; [by run|]. split; [by left|done].
Qed.

(** ** vector_member_ptrs::resize *)

Lemma new_member_ptr_array_fresh (n : nat) (s : state) :
  ∃ arr s',
    new_member_ptr_array n s = Done arr s' ∧
    objs s' = objs s ∧ freed s' = freed s ∧
    length arr = n ∧ NoDup arr ∧
    (∀ slot, slot ∈ arr → cells s !! slot = None) ∧
    (∀ slot, slot ∈ arr → cells s' !! slot = Some None) ∧
    (∀ k, k ∉ arr → cells s' !! k = cells s !! k).
Proof.
  revert s. induction n as [|n IH]; intros s.
  - exists [], s. cbn. repeat split; try done; [constructor|set_solver..].
  - cbn [new_member_ptr_array].
    set (slot := fresh (dom (cells s))).
    set (s1 := mkState (objs s) (freed s) (<[slot:=None]> (cells s))).
    assert (member_ptr_ctor None s = Done slot s1) as H1 by (by run).
    rewrite (bind_done _ _ _ _ _ H1).
    destruct (IH s1) as (rest & s' & Hrun & Hobjs & Hfreed & Hlen & Hnd
                         & Hunused & Hnull & Hframe).
    rewrite (bind_done _ _ _ _ _ Hrun). unfold ret.
    pose proof (fresh_cell_unused s) as Hslot. fold slot in Hslot.
    assert (slot ∉ rest) as Hnotin.
    { intros Hin. apply Hunused in Hin. subst s1. revert Hin. by lookups. }
    exists (slot :: rest), s'. repeat split; try done.
    + cbn. by rewrite Hlen.
    + by constructor.
    + intros k [->|Hk]%elem_of_cons; [done|].
      apply Hunused in Hk. subst s1. cbn [cells] in Hk.
      by apply lookup_insert_None in Hk as [? _].
    + intros k [->|Hk]%elem_of_cons; [|by apply Hnull].
      rewrite Hframe by done. subst s1. by lookups.
    + intros k Hk. apply not_elem_of_cons in Hk as [Hne Hk].
      rewrite Hframe by done. subst s1. by lookups.
Qed.

(** The constructor makes a vector whose array has [m_size] slots, all
    null: the shape that [operator[]] and [resize] rely on. *)
Lemma vector_member_ptrs_ctor_sized (size : nat) (s : state) :
  ∃ this s',
    vector_member_ptrs_ctor size s = Done this s' ∧
    length (m_ptr this) = m_size this ∧
    vector_member_ptrs_size this = size ∧
    NoDup (m_ptr this) ∧
    (∀ slot, slot ∈ m_ptr this → cells s' !! slot = Some None).
Proof.
  destruct (new_member_ptr_array_fresh size s)
    as (arr & s' & Hrun & _ & _ & Hlen & Hnd & _ & Hnull & _).
  exists (mkVector size arr), s'. unfold vector_member_ptrs_ctor.
  by rewrite (bind_done _ _ _ _ _ Hrun).
Qed.

Lemma resize_loop_moves (this : vector_member_ptrs) (news : list positive)
  (newSize : nat) (contents : list ptr) :
  length (m_ptr this) = m_size this →
  length news = newSize →
  length contents = m_size this →
  NoDup (m_ptr this) →
  NoDup news →
  (∀ k, k ∈ m_ptr this → k ∉ news) →
  ∀ (fuel i : nat) (s : state),
    (m_size this `min` newSize - i ≤ fuel)%nat →
    (∀ j slot c, (i ≤ j)%nat → m_ptr this !! j = Some slot →
                 contents !! j = Some c → cells s !! slot = Some c) →
    (∀ j slot, (i ≤ j)%nat → news !! j = Some slot →
               cells s !! slot = Some None) →
    ∃ s',
      resize_loop fuel this news newSize i s = Done tt s' ∧
      objs s' = objs s ∧ freed s' = freed s ∧
      (∀ j slot, (i ≤ j < m_size this `min` newSize)%nat →
                 m_ptr this !! j = Some slot → cells s' !! slot = Some None) ∧
      (∀ j slot c, (i ≤ j < m_size this `min` newSize)%nat →
                   news !! j = Some slot → contents !! j = Some c →
                   cells s' !! slot = Some c) ∧
      (∀ k, (∀ j, (i ≤ j < m_size this `min` newSize)%nat →
                  m_ptr this !! j ≠ Some k ∧ news !! j ≠ Some k) →
            cells s' !! k = cells s !! k).
Proof.
  intros Hlen Hlen' Hlenc Hnd Hnd' Hdisj fuel.
  induction fuel as [|fuel IH]; intros i s Hfuel Hold Hnew;
    cbn [resize_loop];
    destruct ((i <? m_size this)%nat && (i <? newSize)%nat) eqn:Hcond.
  - apply andb_true_iff in Hcond as [?%Nat.ltb_lt ?%Nat.ltb_lt]. lia.
  - apply andb_false_iff in Hcond.
    exists s. repeat split; try done; intros;
      destruct Hcond as [?%Nat.ltb_ge|?%Nat.ltb_ge]; lia.
  - apply andb_true_iff in Hcond as [Hi%Nat.ltb_lt Hi'%Nat.ltb_lt].
    destruct (lookup_lt_is_Some_2 (m_ptr this) i) as [old_slot Hos]; [lia|].
    destruct (lookup_lt_is_Some_2 news i) as [new_slot Hns]; [lia|].
    destruct (lookup_lt_is_Some_2 contents i) as [c Hc]; [lia|].
    pose proof (Hold i old_slot c (le_n _) Hos Hc) as Hoc.
    pose proof (Hnew i new_slot (le_n _) Hns) as Hnc.
    assert (old_slot ≠ new_slot) as Hne.
    { intros ->. eapply Hdisj; by eapply list_elem_of_lookup_2. }
    set (s1 := mkState (objs s) (freed s)
                 (<[new_slot:=c]> (<[old_slot:=None]> (cells s)))).
    destruct (IH (S i) s1) as (s' & Hrun & Hobjs & Hfreed & Ha & Hb & Hc');
      [lia|..].
    { intros j slot c' Hj Hjs Hjc. subst s1. cbn [cells].
      assert (slot ≠ old_slot).
      { intros ->. pose proof (NoDup_lookup _ _ _ _ Hnd Hos Hjs). lia. }
      assert (slot ≠ new_slot).
      { intros ->. eapply Hdisj; by eapply list_elem_of_lookup_2. }
      lookups. apply (Hold j); [lia|done..]. }
    { intros j slot Hj Hjs. subst s1. cbn [cells].
      assert (slot ≠ new_slot).
      { intros ->. pose proof (NoDup_lookup _ _ _ _ Hnd' Hns Hjs). lia. }
      assert (slot ≠ old_slot).
      { intros ->. eapply Hdisj; by eapply list_elem_of_lookup_2. }
      lookups. apply (Hnew j); [lia|done]. }
    exists s'. split.
    { run. exact Hrun. }
    split; [done|]. split; [done|]. split; [|split].
    + intros j slot Hj Hjs. destruct (decide (j = i)) as [->|Hji].
      * simplify_eq. rewrite Hc'; [subst s1; by lookups|].
        intros j Hj'. split; intros Hk.
        -- pose proof (NoDup_lookup _ _ _ _ Hnd Hos Hk). lia.
        -- eapply Hdisj; by eapply list_elem_of_lookup_2.
      * apply (Ha j); [lia|done].
    + intros j slot c' Hj Hjs Hjc. destruct (decide (j = i)) as [->|Hji].
      * simplify_eq. rewrite Hc'; [subst s1; by lookups|].
        intros j Hj'. split; intros Hk.
        -- eapply Hdisj; by eapply list_elem_of_lookup_2.
        -- pose proof (NoDup_lookup _ _ _ _ Hnd' Hns Hk). lia.
      * apply (Hb j); [lia|done..].
    + intros k Hk. rewrite Hc'.
      * destruct (Hk i ltac:(lia)) as [Hk1 Hk2]. subst s1. cbn [cells].
        rewrite !lookup_insert_ne; [done|congruence..].
      * intros j Hj. apply Hk. lia.
  - apply andb_false_iff in Hcond.
    exists s. repeat split; try done; intros;
      destruct Hcond as [?%Nat.ltb_ge|?%Nat.ltb_ge]; lia.
Qed.

Lemma delete_member_ptr_array_frees (arr : list positive) (cs : list ptr)
  (s : state) :
  Forall2 (λ slot c, cells s !! slot = Some c) arr cs →
  NoDup arr →
  NoDup (omap id cs) →
  (∀ l, Some l ∈ cs → is_Some (objs s !! l)) →
  ∃ s',
    delete_member_ptr_array arr s = Done tt s' ∧
    freed s' = omap id cs ++ freed s ∧
    (∀ l, objs s' !! l
          = if decide (l ∈ omap id cs) then None else objs s !! l) ∧
    (∀ k, cells s' !! k = if decide (k ∈ arr) then None else cells s !! k).
Proof.
  intros Hcs. induction Hcs as [|slot c arr cs Hslot Hcs IH];
    intros Hnd Hndc Hlive.
  - exists s. cbn. split; [done|]. split; [done|].
    split; intros; by rewrite decide_False by set_solver.
  - apply NoDup_cons in Hnd as [Hnotin Hnd].
    assert (NoDup (omap id cs)) as Hndc'.
    { destruct c; cbn in Hndc; [by apply NoDup_cons in Hndc as [_ ?]|done]. }
    destruct (IH Hnd Hndc') as (s1 & Hrun & Hfreed & Hobjs & Hcells).
    { intros l Hl. apply Hlive. by right. }
    cbn [delete_member_ptr_array].
    rewrite (bind_done _ _ _ _ _ Hrun).
    assert (cells s1 !! slot = Some c) as Hslot1.
    { rewrite Hcells. by case_decide. }
    destruct c as [l|].
    + cbn in Hndc. apply NoDup_cons in Hndc as [Hl _].
      destruct (Hlive l) as [o Ho]; [by left|].
      assert (objs s1 !! l = Some o) as Ho1.
      { rewrite Hobjs. by case_decide. }
      eexists. split; [by run|]. cbn [objs freed cells omap id].
      split; [by rewrite Hfreed|]. split.
      * intros l'. rewrite lookup_delete, Hobjs.
        destruct (decide (l = l')) as [<-|Hne].
        -- rewrite decide_True; [done|set_solver].
        -- destruct (decide (l' ∈ omap id cs)) as [Hin|Hin].
           ++ rewrite decide_True; [done|set_solver].
           ++ rewrite decide_False; [done|].
              by apply not_elem_of_cons.
      * intros k. rewrite lookup_delete, Hcells.
        destruct (decide (slot = k)) as [<-|Hne].
        -- rewrite decide_True; [done|set_solver].
        -- destruct (decide (k ∈ arr)) as [Hin|Hin].
           ++ rewrite decide_True; [done|set_solver].
           ++ rewrite decide_False; [done|].
              by apply not_elem_of_cons.
    + eexists. split; [by run|]. cbn [objs freed cells omap id].
      split; [done|]. split; [done|].
      intros k. rewrite lookup_delete, Hcells.
      destruct (decide (slot = k)) as [<-|Hne].
      * rewrite decide_True; [done|set_solver].
      * destruct (decide (k ∈ arr)) as [Hin|Hin].
        -- rewrite decide_True; [done|set_solver].
        -- rewrite decide_False; [done|].
              by apply not_elem_of_cons.
Qed.

Lemma omap_replicate_None (n : nat) (l : list ptr) :
  omap id (replicate n None ++ l) = omap id l.
Proof. induction n as [|n IH]; [done|]. cbn. exact IH. Qed.

Lemma omap_take_drop_disjoint (n : nat) (l : list ptr) :
  NoDup (omap id l) →
  NoDup (omap id (drop n l)) ∧
  (∀ x, x ∈ omap id (take n l) → x ∉ omap id (drop n l)).
Proof.
  intros Hnd. rewrite <- (take_drop n l), omap_app in Hnd.
  apply NoDup_app in Hnd as (_ & Hdisj & Hnd). done.
Qed.

(** C4. A vector of [n] slots that hold pairwise distinct live objects (or
    null), resized to [newSize]: [size()] is [newSize]; each new slot
    [i < min n newSize] holds the very pointer the old slot [i] held, and the
    object behind it is still live and as it was; each new slot
    [n <= i < newSize] holds null; the old slots are gone; and the objects
    that the old slots [newSize <= i < n] held are deleted, each once: the log
    of deletes grows by exactly these, without a repeat. *)
Theorem resize_moves_and_frees (s : state) (this : vector_member_ptrs)
  (contents : list ptr) (newSize : nat) :
  length (m_ptr this) = m_size this →
  NoDup (m_ptr this) →
  Forall2 (λ slot c, cells s !! slot = Some c) (m_ptr this) contents →
  NoDup (omap id contents) →
  (∀ l, Some l ∈ contents → is_Some (objs s !! l)) →
  ∃ (newPtr : list positive) (s' : state),
    vector_member_ptrs_resize this newSize s
      = Done (mkVector newSize newPtr) s' ∧
    vector_member_ptrs_size (mkVector newSize newPtr) = newSize ∧
    length newPtr = newSize ∧ NoDup newPtr ∧
    (∀ slot, slot ∈ newPtr → cells s !! slot = None) ∧
    (∀ i slot p, (i < m_size this `min` newSize)%nat →
       newPtr !! i = Some slot → contents !! i = Some p →
       cells s' !! slot = Some p ∧
       ∀ l, p = Some l →
            objs s' !! l = objs s !! l ∧ is_Some (objs s' !! l) ∧
            l ∉ omap id (drop newSize contents)) ∧
    (∀ i slot, (m_size this ≤ i)%nat → newPtr !! i = Some slot →
       cells s' !! slot = Some None) ∧
    (∀ slot, slot ∈ m_ptr this → cells s' !! slot = None) ∧
    (∀ k, k ∉ m_ptr this → k ∉ newPtr → cells s' !! k = cells s !! k) ∧
    freed s' = omap id (drop newSize contents) ++ freed s ∧
    NoDup (omap id (drop newSize contents)) ∧
    (∀ l, objs s' !! l
          = if decide (l ∈ omap id (drop newSize contents)) then None
            else objs s !! l).
Proof.
  intros Hlen Hnd Hcs Hndc Hlive.
  pose proof (Forall2_length _ _ _ Hcs) as Hlenc.
  assert (∀ j slot c, m_ptr this !! j = Some slot → contents !! j = Some c →
                      cells s !! slot = Some c) as Hold.
  { intros j slot c Hj Hc. by eapply (Forall2_lookup_lr _ _ _ _ _ _ Hcs). }
  unfold vector_member_ptrs_resize.
  destruct (new_member_ptr_array_fresh newSize s)
    as (newPtr & s1 & Hrun1 & Hobjs1 & Hfreed1 & Hlen1 & Hnd1 & Hunused
        & Hnull & Hframe1).
  rewrite (bind_done _ _ _ _ _ Hrun1).
  assert (∀ k, k ∈ m_ptr this → k ∉ newPtr) as Hdisj.
  { intros k Hk Hk'. apply Hunused in Hk'.
    apply list_elem_of_lookup in Hk as [j Hj].
    destruct (lookup_lt_is_Some_2 contents j) as [c Hc].
    { rewrite <- Hlenc. by eapply lookup_lt_Some. }
    rewrite (Hold j k c Hj Hc) in Hk'. done. }
  destruct (resize_loop_moves this newPtr newSize contents Hlen Hlen1
              ltac:(lia) Hnd Hnd1 Hdisj (m_size this) 0%nat s1)
    as (s2 & Hrun2 & Hobjs2 & Hfreed2 & Hmoved_old & Hmoved_new & Hframe2).
  { lia. }
  { intros j slot c _ Hj Hc. rewrite Hframe1; [by eapply Hold|].
    apply Hdisj. by eapply list_elem_of_lookup_2. }
  { intros j slot _ Hj. apply Hnull. by eapply list_elem_of_lookup_2. }
  rewrite (bind_done _ _ _ _ _ Hrun2).
  set (m := (m_size this `min` newSize)%nat) in *.
  set (cs2 := replicate m None ++ drop newSize contents).
  destruct (omap_take_drop_disjoint newSize contents Hndc) as [Hndd Htd].
  destruct (delete_member_ptr_array_frees (m_ptr this) cs2 s2)
    as (s3 & Hrun3 & Hfreed3 & Hobjs3 & Hcells3).
  { apply Forall2_same_length_lookup_2.
    - subst cs2. rewrite length_app, length_replicate, length_drop. lia.
    - intros j slot c Hj Hc.
      pose proof (lookup_lt_Some _ _ _ Hj) as Hjlt.
      destruct (decide (j < m)%nat) as [Hjm|Hjm].
      + subst cs2. rewrite lookup_app_l in Hc
          by (rewrite length_replicate; lia).
        apply lookup_replicate in Hc as [-> _].
        apply (Hmoved_old j); [lia|done].
      + subst cs2. rewrite lookup_app_r in Hc
          by (rewrite length_replicate; lia).
        rewrite length_replicate, lookup_drop in Hc.
        replace (newSize + (j - m))%nat with j in Hc by lia.
        rewrite Hframe2.
        * rewrite Hframe1; [by eapply Hold|].
          apply Hdisj. by eapply list_elem_of_lookup_2.
        * intros j' Hj'. split; intros Hk.
          -- pose proof (NoDup_lookup _ _ _ _ Hnd Hj Hk). lia.
          -- eapply Hdisj; by eapply list_elem_of_lookup_2. }
  { done. }
  { subst cs2. by rewrite omap_replicate_None. }
  { intros l Hl. rewrite Hobjs2, Hobjs1. apply Hlive. subst cs2.
    apply elem_of_app in Hl as [Hl|Hl].
    - by apply elem_of_replicate in Hl as [? _].
    - apply list_elem_of_lookup in Hl as [j Hj]. rewrite lookup_drop in Hj.
      by eapply list_elem_of_lookup_2. }
  rewrite (bind_done _ _ _ _ _ Hrun3). unfold ret.
  subst cs2. rewrite omap_replicate_None in Hfreed3, Hobjs3.
  rewrite Hfreed2, Hfreed1 in Hfreed3.
  assert (∀ l, objs s3 !! l
               = if decide (l ∈ omap id (drop newSize contents)) then None
                 else objs s !! l) as Hobjs.
  { intros l. by rewrite Hobjs3, Hobjs2, Hobjs1. }
  assert (∀ i l, (i < m)%nat → contents !! i = Some (Some l) →
                 l ∉ omap id (drop newSize contents)) as Hkept.
  { intros i l Hi Hl. apply Htd. apply list_elem_of_omap. exists (Some l).
    split; [|done]. apply list_elem_of_lookup. exists i.
    rewrite lookup_take_lt by lia. done. }
  exists newPtr, s3.
  split; [done|]. split; [done|]. split; [done|]. split; [done|].
  split; [done|]. split; [|split; [|split; [|split]]].
  - intros i slot p Hi Hslot Hp. split.
    + rewrite Hcells3. pose proof (list_elem_of_lookup_2 _ _ _ Hslot) as Hin.
      rewrite decide_False by (intros ?; by destruct (Hdisj slot)).
      apply (Hmoved_new i); [lia|done..].
    + intros l ->. pose proof (Hkept i l Hi Hp) as Hnot.
      rewrite Hobjs, decide_False by done.
      split; [done|]. split; [|done].
      apply Hlive. by eapply list_elem_of_lookup_2.
  - intros i slot Hi Hslot. rewrite Hcells3.
    pose proof (list_elem_of_lookup_2 _ _ _ Hslot) as Hin.
    rewrite decide_False by (intros ?; by destruct (Hdisj slot)).
    rewrite Hframe2; [by apply Hnull|].
    intros j Hj. split; intros Hk.
    + eapply Hdisj; by eapply list_elem_of_lookup_2.
    + pose proof (NoDup_lookup _ _ _ _ Hnd1 Hslot Hk). lia.
  - intros slot Hslot. rewrite Hcells3. by rewrite decide_True.
  - intros k Hk Hk'. rewrite Hcells3, decide_False by done.
    rewrite Hframe2; [by apply Hframe1|].
    intros j Hj. split; intros Hkj.
    + apply Hk. by eapply list_elem_of_lookup_2.
    + apply Hk'. by eapply list_elem_of_lookup_2.
  - done.
Qed.

(** ** The reference count and the holders of an object *)

Lemma hold_insert_absent (c : gmap positive ptr) (w : positive) (p : ptr)
  (l : positive) :
  c !! w = None →
  hold (<[w:=p]> c) l
    = (hold c l + if decide (p = Some l) then 1 else 0)%nat.
Proof.
  intros Hw. unfold hold. rewrite map_filter_insert. cbn [snd].
  destruct (decide (p = Some l)) as [Hp|Hp].
  - rewrite map_size_insert_None; [lia|].
    apply map_lookup_filter_None. by left.
  - rewrite delete_id by done. lia.
Qed.

Lemma hold_insert (c : gmap positive ptr) (w : positive) (p : ptr)
  (l : positive) :
  hold (<[w:=p]> c) l
    = (hold (delete w c) l + if decide (p = Some l) then 1 else 0)%nat.
Proof.
  rewrite <- (insert_delete_eq c). apply hold_insert_absent, lookup_delete_eq.
Qed.

Lemma hold_delete (c : gmap positive ptr) (w : positive) (p : ptr)
  (l : positive) :
  c !! w = Some p →
  hold c l = (hold (delete w c) l + if decide (p = Some l) then 1 else 0)%nat.
Proof.
  intros Hw. rewrite <- (insert_id c w p Hw) at 1. apply hold_insert.
Qed.

Lemma hold_zero (c : gmap positive ptr) (l : positive) :
  hold c l = 0%nat ↔ ∀ w, c !! w ≠ Some (Some l).
Proof.
  unfold hold. rewrite map_size_empty_iff, map_empty. split.
  - intros Hnone w Hw. specialize (Hnone w).
    apply map_lookup_filter_None in Hnone as [Hnone|Hnone]; [congruence|].
    by apply (Hnone (Some l)).
  - intros Hnone w. apply map_lookup_filter_None.
    destruct (c !! w) as [p|] eqn:Hw; [right|by left].
    intros x [= <-] Hx. cbn in Hx. subst p. by apply (Hnone w).
Qed.

Lemma consistent_absent (s : state) (this : positive) :
  cells s !! this = None →
  consistent (cells s) s →
  consistent (delete this (cells s)) s.
Proof. intros Hw. by rewrite delete_id. Qed.

Lemma consistent_released (s : state) (this : positive) (pw : ptr) :
  consistent (cells s) s →
  cells s !! this = Some pw →
  consistent (delete this (cells s)) (released pw s).
Proof.
  intros (Hcnt & Hdang & Hnd & Hdead) Hcell.
  pose proof (λ l, hold_delete (cells s) this pw l Hcell) as Hhold.
  destruct pw as [l|].
  - destruct (Hdang this l Hcell) as [o Ho]. unfold released, deleted.
    rewrite Ho. pose proof (Hcnt l o Ho) as Hl.
    rewrite (Hhold l), decide_True in Hl by done.
    destruct (m_referenceCount o - 1 =? 0) eqn:Hz.
    + apply Z.eqb_eq in Hz. repeat split; cbn [objs freed cells].
      * intros l' o' [Hne Hl']%lookup_delete_Some.
        rewrite (Hcnt l' o' Hl'), (Hhold l'), decide_False by congruence.
        lia.
      * intros w l' [Hne Hw]%lookup_delete_Some.
        destruct (decide (l' = l)) as [->|Hll].
        -- exfalso. assert (hold (delete this (cells s)) l = 0%nat) as H0
             by lia.
           apply (proj1 (hold_zero _ _) H0 w).
           by rewrite lookup_delete_ne.
        -- rewrite lookup_delete_ne by done. by apply (Hdang w).
      * constructor; [|done]. intros Hin. by rewrite (Hdead l Hin) in Ho.
      * intros l' [->|Hin]%elem_of_cons; [apply lookup_delete_eq|].
        apply lookup_delete_None. right. by apply Hdead.
    + apply Z.eqb_neq in Hz. repeat split; cbn [objs freed cells].
      * intros l' o'. rewrite lookup_insert.
        destruct (decide (l = l')) as [<-|Hne].
        -- intros [= <-]. cbn. lia.
        -- intros Hl'. rewrite (Hcnt l' o' Hl'), (Hhold l'), decide_False
             by congruence. lia.
      * intros w l' [Hne Hw]%lookup_delete_Some.
        apply lookup_insert_is_Some'. right. by apply (Hdang w).
      * done.
      * intros l' Hin. rewrite lookup_insert_ne; [by apply Hdead|].
        intros <-. by rewrite (Hdead l Hin) in Ho.
  - cbn. repeat split; try done.
    + intros l o Ho. rewrite (Hcnt l o Ho), (Hhold l), decide_False by done.
      lia.
    + intros w l [Hne Hw]%lookup_delete_Some. by apply (Hdang w).
Qed.

Lemma consistent_shared (s : state) (this : positive) (p : ptr) :
  consistent (delete this (cells s)) s →
  (∀ l, p = Some l → is_Some (objs s !! l)) →
  consistent (cells (shared this p s)) (shared this p s).
Proof.
  intros (Hcnt & Hdang & Hnd & Hdead) Hlive. unfold shared.
  destruct p as [l|].
  - destruct (Hlive l eq_refl) as [o Ho]. rewrite Ho.
    repeat split; cbn [objs freed cells].
    + intros l' o'. rewrite lookup_insert, hold_insert.
      destruct (decide (l = l')) as [<-|Hne].
      * intros [= <-]. cbn. rewrite (Hcnt l o Ho), decide_True by done. lia.
      * intros Hl'. rewrite (Hcnt l' o' Hl'), decide_False by congruence.
        lia.
    + intros w l'. rewrite lookup_insert.
      destruct (decide (this = w)) as [<-|Hne].
      * intros [= <-]. rewrite lookup_insert_eq. eauto.
      * intros Hw. apply lookup_insert_is_Some'. right.
        apply (Hdang w). by rewrite lookup_delete_ne.
    + done.
    + intros l' Hin. rewrite lookup_insert_ne; [by apply Hdead|].
      intros <-. by rewrite (Hdead l Hin) in Ho.
  - repeat split; cbn [objs freed cells]; try done.
    + intros l o Ho. rewrite hold_insert, (Hcnt l o Ho), decide_False by done.
      lia.
    + intros w l. rewrite lookup_insert.
      destruct (decide (this = w)) as [<-|Hne]; [done|].
      intros Hw. apply (Hdang w). by rewrite lookup_delete_ne.
Qed.

Lemma consistent_adopted_clone (s : state) (this r : positive) (o : T) :
  consistent (delete this (cells s)) s →
  objs s !! r = Some o →
  consistent (cells (adopted_clone this r s)) (adopted_clone this r s).
Proof.
  intros (Hcnt & Hdang & Hnd & Hdead) Hr. unfold adopted_clone.
  rewrite Hr. cbn zeta.
  pose proof (fresh_obj_unused s) as Hfresh.
  pose proof (fresh_obj_not_freed s) as Hfresh'.
  set (p := fresh _) in *.
  assert (hold (delete this (cells s)) p = 0%nat) as Hp.
  { apply hold_zero. intros w Hw. destruct (Hdang w p Hw) as [? Hlive].
    by rewrite Hfresh in Hlive. }
  repeat split; cbn [objs freed cells].
  - intros l' o'. rewrite lookup_insert, hold_insert.
    destruct (decide (p = l')) as [<-|Hne].
    + intros [= <-]. cbn. rewrite Hp, decide_True by done. lia.
    + intros Hl'. rewrite (Hcnt l' o' Hl'), decide_False by congruence. lia.
  - intros w l'. rewrite lookup_insert.
    destruct (decide (this = w)) as [<-|Hne].
    + intros [= <-]. rewrite lookup_insert_eq. eauto.
    + intros Hw. apply lookup_insert_is_Some'. right.
      apply (Hdang w). by rewrite lookup_delete_ne.
  - done.
  - intros l' Hin. rewrite lookup_insert_ne; [by apply Hdead|].
    by intros <-.
Qed.

Lemma consistent_new (s : state) (v : V) :
  consistent (cells s) s →
  consistent (cells s)
    (mkState (<[fresh (dom (objs s) ∪ list_to_set (freed s)):=mkT v 0]>
                (objs s)) (freed s) (cells s)).
Proof.
  intros (Hcnt & Hdang & Hnd & Hdead).
  pose proof (fresh_obj_unused s) as Hfresh.
  pose proof (fresh_obj_not_freed s) as Hfresh'.
  set (p := fresh _) in *.
  assert (hold (cells s) p = 0%nat) as Hp.
  { apply hold_zero. intros w Hw. destruct (Hdang w p Hw) as [? Hlive].
    by rewrite Hfresh in Hlive. }
  repeat split; cbn [objs freed cells].
  - intros l' o'. rewrite lookup_insert.
    destruct (decide (p = l')) as [<-|Hne].
    + intros [= <-]. cbn. lia.
    + by apply Hcnt.
  - intros w l' Hw. apply lookup_insert_is_Some'. right. by apply (Hdang w).
  - done.
  - intros l' Hin. rewrite lookup_insert_ne; [by apply Hdead|].
    by intros <-.
Qed.

Lemma grows_shared (s : state) (this : positive) (p : ptr) :
  grows s (shared this p s).
Proof.
  unfold grows, shared. destruct p as [l|]; [|by eauto using Z.le_refl].
  destruct (objs s !! l) as [o|] eqn:Ho; [|by eauto using Z.le_refl].
  split; [done|]. intros l' o' Hl'. cbn [objs]. rewrite lookup_insert.
  destruct (decide (l = l')) as [<-|Hne]; [|by eauto using Z.le_refl].
  simplify_eq. eexists. split; [done|]. cbn. lia.
Qed.

Lemma grows_adopted_clone (s : state) (this r : positive) :
  grows s (adopted_clone this r s).
Proof.
  unfold grows, adopted_clone.
  destruct (objs s !! r) as [o|] eqn:Ho; [|by eauto using Z.le_refl].
  split; [done|]. intros l' o' Hl'. cbn [objs].
  pose proof (fresh_obj_unused s) as Hfresh.
  rewrite lookup_insert_ne by congruence. eauto using Z.le_refl.
Qed.

Lemma drops_released (s : state) (pw : ptr) :
  drops_at_one s (released pw s).
Proof.
  unfold drops_at_one, released, deleted.
  destruct pw as [l|]; [|by split; eauto].
  destruct (objs s !! l) as [o|] eqn:Ho; [|by split; eauto].
  destruct (m_referenceCount o - 1 =? 0) eqn:Hz; cbn [objs freed].
  - apply Z.eqb_eq in Hz. split.
    + right. exists l, o. repeat split; [done|lia].
    + intros l' o' Hl' Hc. destruct (decide (l = l')) as [<-|Hne].
      * right. simplify_eq. split; [lia|done].
      * left. rewrite lookup_delete_ne by done. eauto.
  - apply Z.eqb_neq in Hz. split; [by left|].
    intros l' o' Hl' Hc. left. rewrite lookup_insert.
    destruct (decide (l = l')) as [<-|Hne]; [|by eauto].
    simplify_eq. eexists. split; [done|]. cbn. lia.
Qed.

Lemma drops_grows (s s1 s' : state) :
  drops_at_one s s1 → grows s1 s' → drops_at_one s s'.
Proof.
  intros [Hfreed Hkept] [Hfreed' Hup]. split.
  - by rewrite Hfreed'.
  - intros l o Hl Hc. rewrite Hfreed'.
    destruct (Hkept l o Hl Hc) as [(o1 & Hl1 & Hc1)|?]; [left|by right].
    destruct (Hup l o1 Hl1) as (o' & Hl' & Hc'). exists o'. split; [done|lia].
Qed.

Lemma drops_refl (s : state) : drops_at_one s s.
Proof. split; eauto. Qed.

Lemma drops_same_heap (s s0 s' : state) :
  objs s0 = objs s → freed s0 = freed s →
  drops_at_one s0 s' → drops_at_one s s'.
Proof. unfold drops_at_one. by intros -> ->. Qed.

Lemma get_effect (s : state) (this l : positive) (o : T) :
  cells s !! this = Some (Some l) →
  objs s !! l = Some o →
  1 < m_referenceCount o →
  ∃ p, counted_ptr_get this s
       = Done p (adopted_clone this l (released (Some l) s)).
Proof.
  intros Hcell Hobj Hcount. rewrite (get_shared s this l o Hcell Hobj Hcount).
  unfold released. rewrite Hobj.
  rewrite (proj2 (Z.eqb_neq (m_referenceCount o - 1) 0)) by lia.
  unfold adopted_clone. lookups.
  rewrite dom_insert_lookup_L by eauto. eauto.
Qed.

Lemma attach_sound (s s' : state) (this r : positive) :
  consistent (cells s) s →
  counted_ptr_attach this r s = Done tt s' →
  consistent (cells s') s' ∧ drops_at_one s s'.
Proof.
  intros Hinv Hrun.
  destruct (cells s !! this) as [pw|] eqn:Hcell;
    [|revert Hrun; run; discriminate].
  assert (∀ l, pw = Some l → is_Some (objs s !! l)) as Hlive.
  { intros l ->. by apply (proj1 (proj2 Hinv) this). }
  pose proof (consistent_released s this pw Hinv Hcell) as H1.
  rewrite <- (released_cells pw s) in H1.
  destruct (objs (released pw s) !! r) as [o|] eqn:Hr.
  - rewrite (attach_effect s this r pw o Hcell Hlive Hr) in Hrun.
    injection Hrun as <-. destruct (m_referenceCount o =? 0).
    + split; [by apply (consistent_adopted_clone _ this r o)|].
      apply (drops_grows s (released pw s));
        [apply drops_released|apply grows_adopted_clone].
    + split.
      * apply (consistent_shared _ this (Some r)); [done|].
        intros l [= <-]. eauto.
      * apply (drops_grows s (released pw s)); [apply drops_released|].
        apply (grows_shared (released pw s) this (Some r)).
  - revert Hrun. unfold counted_ptr_attach.
    rewrite (bind_done _ _ _ _ _ (unref_released s this pw Hcell Hlive)).
    run. discriminate.
Qed.

Lemma run_op_sound (s s' : state) (o : op) :
  consistent (cells s) s →
  raw_owned s o →
  run_op o s = Done tt s' →
  consistent (cells s') s' ∧ drops_at_one s s'.
Proof.
  intros Hinv Hown Hrun.
  pose proof (fresh_cell_unused s) as Hthis.
  pose proof (consistent_absent s _ Hthis Hinv) as Hinv'.
  destruct o as [v|p|r|rhs|this r|this rhs|this|this]; cbn [run_op] in Hrun.
  - (* New *)
    revert Hrun. run. intros [= <-].
    split; [exact (consistent_new s v Hinv)|].
    split; [by left|]. intros l o Hl Hc. left. cbn [objs].
    pose proof (fresh_obj_unused s).
    rewrite lookup_insert_ne by congruence. eauto.
  - (* CtorRaw *)
    destruct p as [l|].
    + destruct (objs s !! l) as [o|] eqn:Ho; [|revert Hrun; run; discriminate].
      rewrite (bind_done _ _ _ _ _ (counted_ptr_ctor_live s l o Ho)) in Hrun.
      injection Hrun as <-.
      assert (m_referenceCount o = 0) as Hc.
      { rewrite (proj1 Hinv l o Ho). cbn in Hown. unfold holders in Hown.
        by rewrite Hown. }
      pose proof (consistent_shared s (fresh (dom (cells s))) (Some l) Hinv'
                    ltac:(intros ? [= <-]; eauto)) as Hs.
      pose proof (grows_shared s (fresh (dom (cells s))) (Some l)) as Hg.
      unfold shared in Hs, Hg. rewrite Ho, Hc in Hs, Hg.
      split; [done|]. apply (drops_grows s s); [apply drops_refl|done].
    + rewrite (bind_done _ _ _ _ _ (counted_ptr_ctor_null s)) in Hrun.
      injection Hrun as <-.
      split; [by apply (consistent_shared s _ None)|].
      apply (drops_grows s s); [apply drops_refl|].
      apply (grows_shared s (fresh (dom (cells s))) None).
  - (* CtorObj *)
    apply bind_ret_done in Hrun as [this Hrun].
    unfold counted_ptr_ctor_obj in Hrun.
    set (s0 := shared (fresh (dom (cells s))) None s).
    assert (init_m_p None s = Done (fresh (dom (cells s))) s0) as Hinit
      by done.
    rewrite (bind_done _ _ _ _ _ Hinit) in Hrun.
    apply bind_ret_done in Hrun as [[] Hatt]. rename s' into s1.
    destruct (attach_sound s0 s1 (fresh (dom (cells s))) r) as [Hc Hd];
      [|done|].
    { by apply (consistent_shared s _ None). }
    split; [done|]. by apply (drops_same_heap s s0).
  - (* CtorCopy *)
    destruct (cells s !! rhs) as [p|] eqn:Hrhs;
      [|revert Hrun; run; discriminate].
    assert (∀ l, p = Some l → is_Some (objs s !! l)) as Hlive.
    { intros l ->. by apply (proj1 (proj2 Hinv) rhs). }
    rewrite (bind_done _ _ _ _ _
               (counted_ptr_copy_ctor_shared s rhs p Hrhs Hlive)) in Hrun.
    injection Hrun as <-.
    split; [by apply (consistent_shared s _ p)|].
    apply (drops_grows s s); [apply drops_refl|].
    apply (grows_shared s _ p).
  - (* Attach *)
    by eapply attach_sound.
  - (* Assign *)
    destruct (decide (this = rhs)) as [->|Hne].
    { unfold counted_ptr_assign in Hrun.
      rewrite bool_decide_eq_true_2 in Hrun by done.
      injection Hrun as <-. split; [done|apply drops_refl]. }
    destruct (cells s !! this) as [pa|] eqn:Ha.
    2:{ revert Hrun. unfold counted_ptr_assign.
        rewrite bool_decide_eq_false_2 by done. run. discriminate. }
    destruct (cells s !! rhs) as [pb|] eqn:Hb.
    2:{ revert Hrun. unfold counted_ptr_assign.
        rewrite bool_decide_eq_false_2 by done. run. discriminate. }
    assert (∀ l, pa = Some l → is_Some (objs s !! l)) as Hla.
    { intros l ->. by apply (proj1 (proj2 Hinv) this). }
    assert (∀ l, pb = Some l → is_Some (objs s !! l)) as Hlb.
    { intros l ->. by apply (proj1 (proj2 Hinv) rhs). }
    destruct (decide (pa = pb)) as [->|Hpne].
    { rewrite (assign_same_pointer s this rhs pb Hne Ha Hb) in Hrun.
      injection Hrun as <-. split; [done|apply drops_refl]. }
    rewrite (assign_effect s this rhs pa pb Hne Ha Hb Hla Hlb Hpne) in Hrun.
    injection Hrun as <-.
    pose proof (consistent_released s this pa Hinv Ha) as H1.
    rewrite <- (released_cells pa s) in H1. split.
    + apply (consistent_shared _ this pb); [done|]. intros l ->.
      destruct (Hlb l eq_refl) as [ob Hob].
      rewrite (released_other s pa l ob Hla Hpne Hob). eauto.
    + apply (drops_grows s (released pa s)); [apply drops_released|].
      apply (grows_shared (released pa s) this pb).
  - (* Get *)
    destruct (cells s !! this) as [[l|]|] eqn:Hcell.
    + destruct (proj1 (proj2 Hinv) this l Hcell) as [o Ho].
      destruct (decide (1 < m_referenceCount o)) as [Hc|Hc].
      * destruct (get_effect s this l o Hcell Ho Hc) as [p Hget].
        rewrite (bind_done _ _ _ _ _ Hget) in Hrun. injection Hrun as <-.
        pose proof (consistent_released s this _ Hinv Hcell) as H1.
        rewrite <- (released_cells (Some l) s) in H1.
        assert (is_Some (objs (released (Some l) s) !! l)) as [o1 Ho1].
        { unfold released. rewrite Ho.
          rewrite (proj2 (Z.eqb_neq (m_referenceCount o - 1) 0)) by lia.
          cbn [objs]. rewrite lookup_insert_eq. eauto. }
        split; [by apply (consistent_adopted_clone _ this l o1)|].
        apply (drops_grows s (released (Some l) s));
          [apply drops_released|apply grows_adopted_clone].
      * rewrite (bind_done _ _ _ _ _
                   (get_unshared s this l o Hcell Ho ltac:(lia))) in Hrun.
        injection Hrun as <-. split; [done|apply drops_refl].
    + revert Hrun. run. intros [= <-]. split; [done|apply drops_refl].
    + revert Hrun. run. discriminate.
  - (* Dtor *)
    destruct (cells s !! this) as [pw|] eqn:Hcell;
      [|revert Hrun; run; discriminate].
    assert (∀ l, pw = Some l → is_Some (objs s !! l)) as Hlive.
    { intros l ->. by apply (proj1 (proj2 Hinv) this). }
    unfold counted_ptr_dtor in Hrun.
    rewrite (bind_done _ _ _ _ _ (unref_released s this pw Hcell Hlive))
      in Hrun.
    pose proof (consistent_released s this pw Hinv Hcell) as H1.
    pose proof (drops_released s pw) as H2.
    pose proof (released_cells pw s) as Hc.
    set (s1 := released pw s) in *.
    revert Hrun. unfold end_lifetime. rewrite Hc, Hcell. intros [= <-].
    split; [done|]. apply (drops_grows s s1); [done|]. split; [done|].
    intros l o Hl. eauto using Z.le_refl.
Qed.

Lemma release_ops_return (s : state) :
  consistent (cells s) s →
  (∀ this, is_Some (cells s !! this) →
           ∃ s', run_op (Dtor this) s = Done tt s') ∧
  (∀ this rhs, is_Some (cells s !! this) → is_Some (cells s !! rhs) →
               ∃ s', run_op (Assign this rhs) s = Done tt s').
Proof.
  intros Hinv.
  assert (∀ w l, cells s !! w = Some (Some l) → is_Some (objs s !! l))
    as Hdang by apply Hinv.
  split.
  - intros this [pw Hcell]. cbn [run_op]. unfold counted_ptr_dtor.
    rewrite (bind_done _ _ _ _ _
               (unref_released s this pw Hcell
                  ltac:(intros l ->; by apply (Hdang this)))).
    unfold end_lifetime. rewrite released_cells, Hcell. by eexists.
  - intros this rhs [pa Ha] [pb Hb]. cbn [run_op].
    destruct (decide (this = rhs)) as [->|Hne].
    { unfold counted_ptr_assign. rewrite bool_decide_eq_true_2 by done.
      by eexists. }
    destruct (decide (pa = pb)) as [->|Hpne].
    { rewrite (assign_same_pointer s this rhs pb Hne Ha Hb). by eexists. }
    rewrite (assign_effect s this rhs pa pb Hne Ha Hb
               ltac:(intros l ->; by apply (Hdang this))
               ltac:(intros l ->; by apply (Hdang rhs)) Hpne).
    by eexists.
Qed.

Lemma reachable_consistent (s : state) :
  reachable_by raw_owned s → consistent (cells s) s.
Proof.
  induction 1 as [|s s' o _ IH Hown Hrun].
  - split; [done|]. split; [done|]. split; [constructor|].
    intros l Hl. by apply not_elem_of_nil in Hl.
  - by destruct (run_op_sound s s' o IH Hown Hrun).
Qed.

(** C2 (amended). In every configuration built with the operations, where
    each raw pointer given to the raw-pointer constructor is null or the
    address of an object that no wrapper holds: the count of every live
    object is the number of live wrappers that hold its address, no wrapper
    holds a deleted object, and no object is deleted twice; the destructor
    of a live wrapper and the assignment between two live wrappers always
    return; and an operation that returns has deleted an object exactly when
    the object had count 1 and the operation leaves it without a holder. *)
Theorem counts_equal_holders (s : state) :
  reachable_by raw_owned s →
  (∀ l o, objs s !! l = Some o →
          m_referenceCount o = Z.of_nat (holders s l)) ∧
  (∀ w l, cells s !! w = Some (Some l) → is_Some (objs s !! l)) ∧
  NoDup (freed s) ∧
  (∀ l, l ∈ freed s → objs s !! l = None) ∧
  (∀ this, is_Some (cells s !! this) →
           ∃ s', run_op (Dtor this) s = Done tt s') ∧
  (∀ this rhs, is_Some (cells s !! this) → is_Some (cells s !! rhs) →
               ∃ s', run_op (Assign this rhs) s = Done tt s') ∧
  (∀ (o : op) (s' : state),
     raw_owned s o →
     run_op o s = Done tt s' →
     ∀ l, (l ∈ freed s' ∧ l ∉ freed s) ↔
          (∃ ob, objs s !! l = Some ob ∧ m_referenceCount ob = 1 ∧
                 holders s' l = 0%nat)).
Proof.
  intros Hreach. pose proof (reachable_consistent s Hreach) as Hinv.
  destruct (release_ops_return s Hinv) as [Hdtor Hassign].
  destruct Hinv as (Hcnt & Hdang & Hnd & Hdead).
  split; [done|]. split; [done|]. split; [done|]. split; [done|].
  split; [done|]. split; [done|].
  intros o s' Hown Hrun l.
  destruct (run_op_sound s s' o) as [(Hcnt' & Hdang' & Hnd' & Hdead') [Hf Hk]];
    [done..|].
  split.
  - intros [Hin Hnotin]. destruct Hf as [Hf|(l0 & o0 & Hl0 & Hc0 & Hf)].
    { by rewrite Hf in Hin. }
    assert (l = l0) as ->.
    { rewrite Hf in Hin. by apply elem_of_cons in Hin as [?|?]. }
    exists o0. split; [done|]. split; [done|].
    apply hold_zero. intros w Hw. destruct (Hdang' w l0 Hw) as [? Hlive].
    by rewrite (Hdead' l0 Hin) in Hlive.
  - intros (ob & Hl & Hc & Hnone).
    destruct (Hk l ob Hl ltac:(lia)) as [(o' & Hl' & Hc')|[_ Hf']].
    + pose proof (Hcnt' l o' Hl') as Hcount. unfold holders in Hnone.
      rewrite Hnone in Hcount. lia.
    + rewrite Hf'. split; [by left|].
      intros Hin. by rewrite (Hdead l Hin) in Hl.
Qed.

(** * Further properties of the wrappers *)

Ltac run_more :=
  unfold slot_reset_then_get, scoped_vector, get_write_then_read,
    scoped_counted_raw, scoped_counted_copy, scoped_counted_obj,
    assign_then_eq, scoped_value_copy, scoped_clonable_copy,
    scoped_released_ptr, scoped_simple_ptr, scoped_member_ptr,
    member_ptr_transfer,
    clonable_ptr_assign, clonable_ptr_copy_ctor, clonable_ptr_dup,
    clonable_ptr_ctor, clonable_ptr_ctor_obj, T_Clone,
    member_ptr_arrow, member_ptr_deref;
  run.

Lemma delete_fresh_insert {A} (m : gmap positive A) (k : positive) (x : A) :
  m !! k = None → delete k (<[k:=x]> m) = m.
Proof. intros Hk. by rewrite delete_insert_eq, delete_id. Qed.

(** ** member_ptr and simple_ptr *)

(** X1. [reset(p)] on a wrapper that holds a live object or null: the old object
    is deleted, once, and the wrapper holds [p], which [get()] returns;
    after [reset(NULL)] the destructor has nothing left to free; but
    [reset] with the very pointer the wrapper holds leaves it on the deleted
    address, and the destructor then deletes that address again. *)
Theorem reset_deletes_old_and_adopts (s : state) (this : positive)
  (held p : ptr) :
  cells s !! this = Some held →
  (∀ l, held = Some l → is_Some (objs s !! l)) →
  let s' := deleted held
              (mkState (objs s) (freed s) (<[this:=p]> (cells s))) in
  member_ptr_reset this p s = Done tt s' ∧
  member_ptr_get this s' = Done p s' ∧
  (p = None → member_ptr_dtor this s' = Done tt s') ∧
  (∀ l, held = Some l → p = Some l → member_ptr_dtor this s' = Undefined).
Proof.
  intros Hcell Hlive s'. subst s'. unfold deleted.
  destruct held as [l|].
  - destruct (Hlive l eq_refl) as [o Ho].
    split; [by run|]. split; [by run|]. split.
    + intros ->. by run.
    + intros ? [= <-] ->. by run.
  - split; [by run|]. split; [by run|]. split; [|done].
    intros ->. by run.
Qed.

(** X2. [dst.reset(src.release())] between two wrappers: [src] is left null,
    [dst] holds what [src] held, the object [dst] held before is deleted, and
    the moved object is as it was; on one and the same wrapper it changes
    nothing. *)
Theorem transfer_moves_ownership (s : state) (dst src : positive)
  (pd ps : ptr) :
  cells s !! src = Some ps →
  cells s !! dst = Some pd →
  (∀ l, pd = Some l → is_Some (objs s !! l)) →
  (dst = src → member_ptr_transfer dst src s = Done tt s) ∧
  (dst ≠ src →
   let s' := deleted pd
               (mkState (objs s) (freed s)
                  (<[dst:=ps]> (<[src:=None]> (cells s)))) in
   member_ptr_transfer dst src s = Done tt s' ∧
   member_ptr_get src s' = Done None s' ∧
   member_ptr_get dst s' = Done ps s' ∧
   (∀ l, ps = Some l → pd ≠ Some l → objs s' !! l = objs s !! l)).
Proof.
  intros Hsrc Hdst Hlive. split.
  - intros ->. run_more. f_equal. symmetry. apply state_eq; [done..|].
    rewrite insert_insert_eq. symmetry. apply insert_id. congruence.
  - intros Hne s'. subst s'. unfold deleted. destruct pd as [l|].
    + destruct (Hlive l eq_refl) as [o Ho].
      split; [by run_more|]. split; [by run_more|]. split; [by run_more|].
      intros l' -> Hl'. cbn [objs]. rewrite lookup_delete_ne; [done|].
      congruence.
    + split; [by run_more|]. split; [by run_more|]. split; [by run_more|].
      done.
Qed.

(** X3. A [member_ptr] or [simple_ptr] that lives for one scope deletes the
    object it was given exactly once and leaves no other trace; if the
    pointer is released first, nothing is deleted and the store is as
    before. *)
Theorem scoped_wrapper_deletes_once (s : state) (p : ptr) :
  (∀ l, p = Some l → is_Some (objs s !! l)) →
  scoped_member_ptr p s = Done tt (deleted p s) ∧
  scoped_simple_ptr p s = Done tt (deleted p s) ∧
  scoped_released_ptr p s = Done p s.
Proof.
  intros Hlive. pose proof (fresh_cell_unused s) as Hfresh.
  unfold deleted. destruct p as [l|].
  - destruct (Hlive l eq_refl) as [o Ho]. split; [|split]; run_more.
    + by rewrite delete_fresh_insert.
    + by rewrite insert_insert_eq, delete_fresh_insert.
    + rewrite insert_insert_eq, delete_fresh_insert by done.
      f_equal. symmetry. by apply state_eq.
  - split; [|split]; run_more.
    + rewrite delete_fresh_insert by done. f_equal. symmetry.
      by apply state_eq.
    + rewrite insert_insert_eq, delete_fresh_insert by done.
      f_equal. symmetry. by apply state_eq.
    + rewrite insert_insert_eq, delete_fresh_insert by done.
      f_equal. symmetry. by apply state_eq.
Qed.

(** X4. A released wrapper is empty: a second [release()] returns null and
    changes nothing, [get()] and [operator->] return null, and [operator*]
    has no object to refer to. *)
Theorem released_wrapper_is_empty (s : state) (this : positive) (p : ptr) :
  cells s !! this = Some p →
  let s' := mkState (objs s) (freed s) (<[this:=None]> (cells s)) in
  member_ptr_release this s = Done p s' ∧
  member_ptr_release this s' = Done None s' ∧
  member_ptr_get this s' = Done None s' ∧
  member_ptr_arrow this s' = Done None s' ∧
  member_ptr_deref this s' = Undefined.
Proof.
  intros Hcell s'. subst s'.
  split; [by run|]. split; [|split; [|split]]; run_more; try done.
  by rewrite insert_insert_eq.
Qed.

(** ** value_ptr and clonable_ptr *)

(** X5. A [value_ptr] or [clonable_ptr] copy that lives for one scope leaves the
    wrapper it was copied from, and that wrapper's object, as they were:
    the only trace is the address of the copy in the log of deletes. *)
Theorem scoped_copy_leaves_original (s : state) (rhs : positive) (p : ptr) :
  cells s !! rhs = Some p →
  (∀ l, p = Some l → is_Some (objs s !! l)) →
  let s' :=
    match p with
    | Some _ =>
        mkState (objs s)
          (fresh (dom (objs s) ∪ list_to_set (freed s)) :: freed s) (cells s)
    | None => s
    end in
  scoped_value_copy rhs s = Done tt s' ∧
  scoped_clonable_copy rhs s = Done tt s'.
Proof.
  intros Hrhs Hlive s'. subst s'.
  pose proof (fresh_cell_unused s) as Hcell.
  pose proof (fresh_obj_unused s) as Hobj.
  destruct p as [l|].
  - destruct (Hlive l eq_refl) as [o Ho].
    assert (fresh (dom (cells s)) ≠ rhs) by congruence.
    split; run_more; by rewrite !delete_fresh_insert.
  - split; run_more; rewrite delete_fresh_insert by done;
      f_equal; symmetry; by apply state_eq.
Qed.

(** X6. After [a = b] between two [value_ptr] wrappers that do not hold the same
    object, [a] holds a new copy of [b]'s object, [b] and its object are as
    before, and [a == b] is [T]'s [==] on two copies of that object. *)
Theorem assigned_compares_equal (T_eq : T → T → bool) (s : state)
  (a b : positive) (pa : ptr) (lb : positive) (ob : T) :
  a ≠ b →
  cells s !! a = Some pa →
  cells s !! b = Some (Some lb) →
  objs s !! lb = Some ob →
  (∀ l, pa = Some l → is_Some (objs s !! l)) →
  pa ≠ Some lb →
  let s' := deleted pa (adopted_copy a (Some lb) s) in
  assign_then_eq T_eq a b s = Done (T_eq ob ob) s' ∧
  cells s' !! b = Some (Some lb) ∧
  objs s' !! lb = Some ob ∧
  ∃ la, cells s' !! a = Some (Some la) ∧ la ≠ lb ∧ objs s' !! la = Some ob.
Proof.
  intros Hab Ha Hb Hob Hlive Hne s'. subst s'.
  pose proof (fresh_obj_unused s) as Hfresh.
  unfold adopted_copy, deleted. rewrite Hob. cbn zeta.
  set (q := fresh (dom (objs s) ∪ list_to_set (freed s))) in *.
  assert (q ≠ lb) as Hq by congruence.
  unfold assign_then_eq, value_ptr_assign.
  rewrite bool_decide_eq_false_2 by done. cbn [negb].
  destruct pa as [la|].
  - destruct (Hlive la eq_refl) as [oa Hoa].
    assert (q ≠ la) by congruence. assert (la ≠ lb) by congruence.
    split; [by subst q; run|]. split; [by lookups|]. split; [by lookups|].
    exists q. by lookups.
  - split; [by subst q; run|]. split; [by lookups|]. split; [by lookups|].
    exists q. by lookups.
Qed.

(** X7. [operator==] of [value_ptr] never changes the store, and it gives the
    same answer with its operands swapped whenever [T]'s [==] does. *)
Theorem value_ptr_eq_symmetric (T_eq : T → T → bool) (s : state)
  (a b : positive) :
  (∀ x y, T_eq x y = T_eq y x) →
  value_ptr_eq T_eq a b s = value_ptr_eq T_eq b a s ∧
  (∀ r s', value_ptr_eq T_eq a b s = Done r s' → s' = s).
Proof.
  intros Hsym.
  destruct (cells s !! a) as [[la|]|] eqn:Ha;
    destruct (cells s !! b) as [[lb|]|] eqn:Hb;
    try (destruct (objs s !! la) as [oa|] eqn:Hoa);
    try (destruct (objs s !! lb) as [ob|] eqn:Hob);
    run;
    (split; [try done; by rewrite Hsym|intros r s' Heq; by simplify_eq]).
Qed.

(** X8. A copy of a [clonable_ptr] holds a new clone at an address of its own,
    equal to the original object, which stays as it was; a copy of a wrapper
    that holds null holds null. *)
Theorem clonable_copy_is_independent (s : state) (rhs : positive) (p : ptr) :
  cells s !! rhs = Some p →
  (∀ l, p = Some l → is_Some (objs s !! l)) →
  let b := fresh (dom (cells s)) in
  let s' := adopted_copy b p s in
  clonable_ptr_copy_ctor rhs s = Done b s' ∧
  b ≠ rhs ∧
  cells s' !! rhs = Some p ∧
  (p = None → cells s' !! b = Some None ∧ objs s' = objs s) ∧
  (∀ l o, p = Some l → objs s !! l = Some o →
     ∃ q, cells s' !! b = Some (Some q) ∧ q ≠ l ∧ objs s !! q = None ∧
          objs s' !! q = Some o ∧ objs s' !! l = Some o).
Proof.
  intros Hrhs Hlive b s'. subst b s'.
  pose proof (fresh_cell_unused s) as Hcell.
  pose proof (fresh_obj_unused s) as Hobj.
  assert (fresh (dom (cells s)) ≠ rhs) as Hne by congruence.
  unfold adopted_copy. destruct p as [l|].
  - destruct (Hlive l eq_refl) as [o Ho]. rewrite Ho. cbn zeta.
    set (q := fresh (dom (objs s) ∪ list_to_set (freed s))) in *.
    assert (q ≠ l) by congruence.
    split; [by subst q; run_more|]. split; [done|]. split; [by lookups|].
    split; [done|]. intros l' o' [= <-] Ho'. simplify_eq.
    exists q. by lookups.
  - split; [by run_more|]. split; [done|]. split; [by lookups|].
    split; [by lookups|]. done.
Qed.

(** X9. [clonable_ptr] assignment: [a = a] changes nothing; otherwise [a] adopts
    a new clone of [b]'s object (or null), and only then is the object [a]
    held deleted, so that [b] and its object are untouched unless [a] held
    that very object. *)
Theorem clonable_assign_clones_then_deletes :
  (∀ (s : state) (a : positive), clonable_ptr_assign a a s = Done tt s) ∧
  (∀ (s : state) (a b : positive) (pa pb : ptr),
     a ≠ b →
     cells s !! a = Some pa →
     cells s !! b = Some pb →
     (∀ l, pa = Some l → is_Some (objs s !! l)) →
     (∀ l, pb = Some l → is_Some (objs s !! l)) →
     let s' := deleted pa (adopted_copy a pb s) in
     clonable_ptr_assign a b s = Done tt s' ∧
     cells s' !! b = Some pb ∧
     (∀ l o, pb = Some l → pa ≠ Some l → objs s !! l = Some o →
        objs s' !! l = Some o ∧
        ∃ q, cells s' !! a = Some (Some q) ∧ q ≠ l ∧
             objs s' !! q = Some o)).
Proof.
  split.
  - intros s a. unfold clonable_ptr_assign.
    by rewrite bool_decide_eq_true_2.
  - intros s a b pa pb Hab Ha Hb Hla Hlb s'. subst s'.
    pose proof (fresh_obj_unused s) as Hfresh.
    unfold clonable_ptr_assign. rewrite bool_decide_eq_false_2 by done.
    cbn [negb]. unfold adopted_copy, deleted.
    destruct pb as [lb|].
    + destruct (Hlb lb eq_refl) as [ob Hob]. rewrite Hob. cbn zeta.
      set (q := fresh (dom (objs s) ∪ list_to_set (freed s))) in *.
      assert (q ≠ lb) by congruence.
      destruct pa as [la|].
      * destruct (Hla la eq_refl) as [oa Hoa].
        assert (q ≠ la) by congruence.
        split; [by subst q; run_more|]. split; [by lookups|].
        intros l o [= <-] Hne Ho. simplify_eq.
        assert (la ≠ lb) by congruence.
        split; [by lookups|]. exists q. by lookups.
      * split; [by subst q; run_more|]. split; [by lookups|].
        intros l o [= <-] _ Ho. simplify_eq.
        split; [by lookups|]. exists q. by lookups.
    + destruct pa as [la|].
      * destruct (Hla la eq_refl) as [oa Hoa].
        split; [by run_more|]. split; [by lookups|]. done.
      * split; [by run_more|]. split; [by lookups|]. done.
Qed.

(** ** counted_ptr *)

(** X10. A [counted_ptr] built from a raw pointer and destroyed at the end of its
    scope deletes the object, whatever count the object had before: the
    constructor has set the count to 1. *)
Theorem scoped_counted_raw_deletes (s : state) (p : ptr) :
  (∀ l, p = Some l → is_Some (objs s !! l)) →
  scoped_counted_raw p s = Done tt (deleted p s).
Proof.
  intros Hlive. pose proof (fresh_cell_unused s) as Hfresh.
  unfold deleted, scoped_counted_raw. destruct p as [l|].
  - destruct (Hlive l eq_refl) as [o Ho].
    rewrite (bind_done _ _ _ _ _ (counted_ptr_ctor_live s l o Ho)).
    run. change (1 - 1 =? 0) with true. lookups.
    rewrite (delete_fresh_insert (cells s)) by done.
    by rewrite !delete_insert_eq.
  - rewrite (bind_done _ _ _ _ _ (counted_ptr_ctor_null s)). run.
    rewrite delete_fresh_insert by done. f_equal. symmetry.
    by apply state_eq.
Qed.

(** X11. A copy of a [counted_ptr] that lives for one scope leaves the store
    exactly as it was: the count goes up by one and down again, and nothing
    is deleted (the shared object has a count other than 0). *)
Theorem scoped_counted_copy_restores (s : state) (rhs : positive) (p : ptr) :
  cells s !! rhs = Some p →
  (∀ l, p = Some l → ∃ o, objs s !! l = Some o ∧ m_referenceCount o ≠ 0) →
  scoped_counted_copy rhs s = Done tt s.
Proof.
  intros Hrhs Hlive. pose proof (fresh_cell_unused s) as Hfresh.
  unfold scoped_counted_copy.
  rewrite (bind_done _ _ _ _ _
             (counted_ptr_copy_ctor_shared s rhs p Hrhs
                ltac:(intros l Hl; destruct (Hlive l Hl) as (? & ? & _);
                      eauto))).
  unfold shared. destruct p as [l|].
  - destruct (Hlive l eq_refl) as (o & Ho & Hc). rewrite Ho. run.
    rewrite (proj2 (Z.eqb_neq (m_referenceCount o + 1 - 1) 0)) by lia.
    lookups. f_equal. symmetry. apply state_eq; cbn [objs freed cells].
    + rewrite insert_insert_eq. symmetry. apply insert_id. rewrite Ho.
      destruct o as [v c]. cbn. do 2 f_equal. lia.
    + done.
    + by rewrite delete_fresh_insert.
  - run. rewrite delete_fresh_insert by done. f_equal. symmetry.
    by apply state_eq.
Qed.

(** X12. A [counted_ptr] built from an object [r] and destroyed at the end of its
    scope leaves [r] as it was: if [r] is shared (count other than 0) the
    store is exactly as before; if [r] has count 0 a clone was made and is
    deleted again, and [r] itself was never adopted. *)
Theorem scoped_counted_obj_leaves_object (s : state) (r : positive) (o : T) :
  objs s !! r = Some o →
  (m_referenceCount o ≠ 0 → scoped_counted_obj r s = Done tt s) ∧
  (m_referenceCount o = 0 →
   scoped_counted_obj r s
     = Done tt
         (mkState (objs s)
            (fresh (dom (objs s) ∪ list_to_set (freed s)) :: freed s)
            (cells s))).
Proof.
  intros Hr. pose proof (fresh_cell_unused s) as Hfresh.
  pose proof (fresh_obj_unused s) as Hobj.
  set (this := fresh (dom (cells s))) in *.
  set (s0 := mkState (objs s) (freed s) (<[this:=None]> (cells s))).
  assert (cells s0 !! this = Some None) as Hthis by (subst s0; by lookups).
  pose proof (attach_effect s0 this r None o Hthis ltac:(done) Hr) as Hatt.
  assert (∀ s1, counted_ptr_attach this r s0 = Done tt s1 →
                scoped_counted_obj r s
                = bind (counted_ptr_dtor this) (λ _, end_lifetime this) s1)
    as Hrun.
  { intros s1 H1.
    assert (counted_ptr_ctor_obj r s = Done this s1) as Hctor.
    { unfold counted_ptr_ctor_obj.
      rewrite (bind_done _ _ s s0 this) by done.
      by rewrite (bind_done _ _ _ _ _ H1). }
    unfold scoped_counted_obj. by rewrite (bind_done _ _ _ _ _ Hctor). }
  split; intros Hc.
  - rewrite (proj2 (Z.eqb_neq _ _) Hc) in Hatt. rewrite (Hrun _ Hatt).
    unfold shared. cbn [released]. subst s0. lookups. run.
    rewrite (proj2 (Z.eqb_neq (m_referenceCount o + 1 - 1) 0)) by lia.
    lookups. f_equal. symmetry. apply state_eq; cbn [objs freed cells].
    + rewrite insert_insert_eq. symmetry. apply insert_id. rewrite Hr.
      destruct o as [v c]. cbn. do 2 f_equal. lia.
    + done.
    + by rewrite insert_insert_eq, delete_fresh_insert.
  - rewrite (proj2 (Z.eqb_eq _ _) Hc) in Hatt. rewrite (Hrun _ Hatt).
    unfold adopted_clone. cbn [released]. subst s0. lookups.
    set (q := fresh (dom (objs s) ∪ list_to_set (freed s))) in *.
    run. change (1 - 1 =? 0) with true. lookups.
    rewrite !insert_insert_eq.
    rewrite (delete_fresh_insert (cells s)) by done.
    by rewrite (delete_fresh_insert (objs s)).
Qed.

(** X13. The mutable [get()] leaves the wrapper as the only holder by count: the
    object it returns has the value of the one held before and a count of
    at most 1, and a second [get()] returns the same pointer and changes
    nothing. *)
Theorem get_twice_is_get (s : state) (this : positive) (p : ptr) :
  cells s !! this = Some p →
  (∀ l, p = Some l → is_Some (objs s !! l)) →
  ∃ q s',
    counted_ptr_get this s = Done q s' ∧
    cells s' !! this = Some q ∧
    counted_ptr_get this s' = Done q s' ∧
    (p = None → q = None ∧ s' = s) ∧
    (∀ l o, p = Some l → objs s !! l = Some o →
       ∃ l' o', q = Some l' ∧ objs s' !! l' = Some o' ∧
                payload o' = payload o ∧ m_referenceCount o' ≤ 1).
Proof.
  intros Hcell Hlive. destruct p as [l|].
  - destruct (Hlive l eq_refl) as [o Ho].
    destruct (decide (1 < m_referenceCount o)) as [Hc|Hc].
    + pose proof (fresh_obj_unused s) as Hfresh.
      set (temp := fresh (dom (objs s) ∪ list_to_set (freed s))) in *.
      assert (temp ≠ l) by congruence.
      eexists _, _. split; [by apply (get_shared s this l o)|].
      fold temp. split; [by lookups|]. split.
      * apply (get_unshared _ this temp (mkT (payload o) 1));
          [by lookups..|done].
      * split; [done|]. intros l' o' [= <-] Ho'. simplify_eq.
        exists temp, (mkT (payload o) 1). by lookups.
    + exists (Some l), s.
      pose proof (get_unshared s this l o Hcell Ho ltac:(lia)) as Hget.
      split; [done|]. split; [done|]. split; [done|]. split; [done|].
      intros l' o' [= <-] Ho'. simplify_eq. exists l, o.
      repeat split; [done|lia].
  - exists None, s. split; [by run|]. split; [done|]. split; [by run|].
    split; [done|]. intros ? ? [=].
Qed.

(** X14. Copy on write keeps writes private: a value written through the pointer
    that the mutable [get()] of [w] returns is not what another wrapper
    reads, also when the two shared one object before the call (its count
    was above 1). *)
Theorem get_write_is_private (s : state) (w other l l' : positive)
  (o o1 o' : T) :
  w ≠ other →
  cells s !! w = Some (Some l) →
  objs s !! l = Some o →
  cells s !! other = Some (Some l') →
  objs s !! l' = Some o1 →
  (l' = l → 1 < m_referenceCount o) →
  ∃ r s', get_write_then_read w other o' s = Done r s' ∧
          payload r = payload o1.
Proof.
  intros Hne Hw Ho Hother Ho1 Hshared. unfold get_write_then_read.
  destruct (decide (1 < m_referenceCount o)) as [Hc|Hc].
  - pose proof (fresh_obj_unused s) as Hfresh.
    rewrite (bind_done _ _ _ _ _ (get_shared s w l o Hw Ho Hc)).
    set (temp := fresh (dom (objs s) ∪ list_to_set (freed s))) in *.
    assert (temp ≠ l) by congruence. assert (temp ≠ l') by congruence.
    destruct (decide (l' = l)) as [->|Hll].
    + simplify_eq. eexists _, _. split; [by run|]. done.
    + eexists _, _. split; [by run|]. done.
  - assert (l' ≠ l) as Hll by (intros ->; by apply Hc, Hshared).
    rewrite (bind_done _ _ _ _ _ (get_unshared s w l o Hw Ho ltac:(lia))).
    eexists _, _. split; [by run|]. done.
Qed.

(** X15. [w.attach( *w)], the object the wrapper itself holds: with count 1 the
    object is deleted before [attach] reads it, which has no defined
    behaviour; with any other count the store is left exactly as it was. *)
Theorem self_attach_needs_a_sharer (s : state) (this l : positive) (o : T) :
  cells s !! this = Some (Some l) →
  objs s !! l = Some o →
  (m_referenceCount o = 1 → counted_ptr_attach this l s = Undefined) ∧
  (m_referenceCount o ≠ 1 → counted_ptr_attach this l s = Done tt s).
Proof.
  intros Hcell Ho. split; intros Hc.
  - run. rewrite Hc. change (1 - 1 =? 0) with true. by lookups.
  - assert (objs (released (Some l) s) !! l
            = Some (mkT (payload o) (m_referenceCount o - 1))) as Hr.
    { unfold released. rewrite Ho.
      rewrite (proj2 (Z.eqb_neq (m_referenceCount o - 1) 0)) by lia.
      by lookups. }
    rewrite (attach_effect s this l (Some l) _ Hcell
               ltac:(intros ? [= <-]; eauto) Hr).
    cbn [m_referenceCount].
    rewrite (proj2 (Z.eqb_neq (m_referenceCount o - 1) 0)) by lia.
    by rewrite (shared_after_released_same s l o this Hcell Ho Hc).
Qed.

(** X16. After [a = b] on distinct [counted_ptr] wrappers both hold what [b]
    held, and the same assignment once more changes nothing. *)
Theorem assign_twice_is_assign (s : state) (a b : positive) (pa pb : ptr) :
  a ≠ b →
  cells s !! a = Some pa →
  cells s !! b = Some pb →
  (∀ l, pa = Some l → is_Some (objs s !! l)) →
  (∀ l, pb = Some l → is_Some (objs s !! l)) →
  ∃ s', counted_ptr_assign a b s = Done tt s' ∧
        cells s' !! a = Some pb ∧
        cells s' !! b = Some pb ∧
        counted_ptr_assign a b s' = Done tt s'.
Proof.
  intros Hab Ha Hb Hla Hlb. destruct (decide (pa = pb)) as [->|Hne].
  - exists s. pose proof (assign_same_pointer s a b pb Hab Ha Hb). done.
  - exists (shared a pb (released pa s)).
    split; [by apply assign_effect|].
    pose proof (released_cells pa s) as Hc.
    assert (cells (shared a pb (released pa s)) !! a = Some pb
            ∧ cells (shared a pb (released pa s)) !! b = Some pb) as [Ha' Hb'].
    { unfold shared. destruct pb as [lb|].
      - destruct (Hlb lb eq_refl) as [ob Hob].
        rewrite (released_other s pa lb ob Hla Hne Hob).
        cbn [cells]. rewrite Hc. by lookups.
      - cbn [cells]. rewrite Hc. by lookups. }
    split; [done|]. split; [done|]. by apply (assign_same_pointer _ a b pb).
Qed.

(** ** vector_member_ptrs *)

Lemma delete_member_ptr_array_done (arr : list positive) (cs : list ptr)
  (s s' : state) :
  Forall2 (λ slot c, cells s !! slot = Some c) arr cs →
  NoDup arr →
  delete_member_ptr_array arr s = Done tt s' →
  NoDup (omap id cs) ∧ (∀ l, Some l ∈ cs → is_Some (objs s !! l)).
Proof.
  intros Hcs. revert s'.
  induction Hcs as [|slot c arr cs Hslot Hcs IH]; intros s' Hnd Hrun.
  - split; [constructor|]. intros l Hl. by apply not_elem_of_nil in Hl.
  - apply NoDup_cons in Hnd as [Hnotin Hnd].
    cbn [delete_member_ptr_array] in Hrun.
    destruct (delete_member_ptr_array arr s) as [[] s1| | |] eqn:Hrest;
      try (unfold bind in Hrun; rewrite Hrest in Hrun; discriminate).
    destruct (IH s1 Hnd eq_refl) as [Hndc Hlive].
    destruct (delete_member_ptr_array_frees arr cs s Hcs Hnd Hndc Hlive)
      as (s1' & Hrun1 & _ & Hobjs & Hcells).
    rewrite Hrest in Hrun1. injection Hrun1 as <-.
    rewrite (bind_done _ _ _ _ _ Hrest) in Hrun.
    assert (cells s1 !! slot = Some c) as Hslot1.
    { rewrite Hcells. by rewrite decide_False. }
    destruct c as [l|]; cbn [omap id].
    + destruct (objs s1 !! l) as [o|] eqn:Ho;
        [|revert Hrun; run; discriminate].
      rewrite Hobjs in Ho.
      destruct (decide (l ∈ omap id cs)) as [|Hl]; [done|].
      split; [by constructor|].
      intros l' [[= ->]|Hl']%elem_of_cons; [eauto|by apply Hlive].
    + split; [done|].
      intros l' [[=]|Hl']%elem_of_cons. by apply Hlive.
Qed.

(** X17. The destructor of a vector returns exactly when its slots hold pairwise
    distinct live objects (or null); it then deletes each held object once,
    last slot first, and the slots are gone.  With an object in two slots,
    or a dead one in a slot, it does not return. *)
Theorem vector_dtor_frees_each_once (s : state) (this : vector_member_ptrs)
  (contents : list ptr) :
  NoDup (m_ptr this) →
  Forall2 (λ slot c, cells s !! slot = Some c) (m_ptr this) contents →
  ((∃ s', vector_member_ptrs_dtor this s = Done tt s') ↔
   NoDup (omap id contents) ∧
   (∀ l, Some l ∈ contents → is_Some (objs s !! l))) ∧
  (∀ s', vector_member_ptrs_dtor this s = Done tt s' →
     freed s' = omap id contents ++ freed s ∧
     (∀ l, objs s' !! l
           = if decide (l ∈ omap id contents) then None else objs s !! l) ∧
     (∀ k, cells s' !! k
           = if decide (k ∈ m_ptr this) then None else cells s !! k)).
Proof.
  intros Hnd Hcs. unfold vector_member_ptrs_dtor. split; [split|].
  - intros [s' Hrun].
    by apply (delete_member_ptr_array_done (m_ptr this) contents s s').
  - intros [Hndc Hlive].
    destruct (delete_member_ptr_array_frees _ _ s Hcs Hnd Hndc Hlive)
      as (s' & Hrun & _). eauto.
  - intros s' Hrun.
    destruct (delete_member_ptr_array_done _ _ s s' Hcs Hnd Hrun)
      as [Hndc Hlive].
    destruct (delete_member_ptr_array_frees _ _ s Hcs Hnd Hndc Hlive)
      as (s1 & Hrun1 & Hrest).
    rewrite Hrun in Hrun1. by injection Hrun1 as <-.
Qed.

(** X18. A new vector of [size] slots: [size()] is [size], the slots are new
    wrappers that all hold null, which is what [v[i].get()] returns for every
    [i < size], and no object is made or deleted. *)
Theorem new_vector_is_empty (s : state) (size : nat) :
  ∃ this s',
    vector_member_ptrs_ctor size s = Done this s' ∧
    vector_member_ptrs_size this = size ∧
    length (m_ptr this) = size ∧
    NoDup (m_ptr this) ∧
    objs s' = objs s ∧ freed s' = freed s ∧
    (∀ slot, slot ∈ m_ptr this → cells s !! slot = None) ∧
    (∀ k, k ∉ m_ptr this → cells s' !! k = cells s !! k) ∧
    (∀ i, (i < size)%nat →
       ∃ slot, vector_member_ptrs_index this i s' = Done slot s' ∧
               member_ptr_get slot s' = Done None s').
Proof.
  destruct (new_member_ptr_array_fresh size s)
    as (arr & s' & Hrun & Hobjs & Hfreed & Hlen & Hnd & Hunused & Hnull
        & Hframe).
  exists (mkVector size arr), s'. unfold vector_member_ptrs_ctor.
  rewrite (bind_done _ _ _ _ _ Hrun).
  split; [done|]. split; [done|]. split; [done|]. split; [done|].
  split; [done|]. split; [done|]. split; [done|]. split; [done|].
  intros i Hi.
  destruct (lookup_lt_is_Some_2 arr i) as [slot Hslot]; [lia|].
  pose proof (Hnull slot (list_elem_of_lookup_2 _ _ _ Hslot)) as Hcell.
  exists slot. split; [|by run].
  unfold vector_member_ptrs_index, CRYPTOPP_ASSERT, slot_at.
  cbn [m_ptr m_size]. by rewrite (proj2 (Nat.ltb_lt _ _) Hi), Hslot.
Qed.

(** X19. A vector that lives for one scope, with nothing put into its slots,
    leaves the store exactly as it was. *)
Theorem scoped_vector_restores (s : state) (size : nat) :
  scoped_vector size s = Done tt s.
Proof.
  destruct (new_member_ptr_array_fresh size s)
    as (arr & s1 & Hrun & Hobjs & Hfreed & Hlen & Hnd & Hunused & Hnull
        & Hframe).
  unfold scoped_vector, vector_member_ptrs_ctor.
  unfold bind at 1. rewrite (bind_done _ _ _ _ _ Hrun). unfold ret.
  unfold vector_member_ptrs_dtor. cbn [m_ptr].
  destruct (delete_member_ptr_array_frees arr (replicate size None) s1)
    as (s2 & Hrun2 & Hfreed2 & Hobjs2 & Hcells2).
  { apply Forall2_same_length_lookup_2; [by rewrite length_replicate|].
    intros i slot c Hslot [-> _]%lookup_replicate.
    apply Hnull. by eapply list_elem_of_lookup_2. }
  { done. }
  { rewrite <- (app_nil_r (replicate size None)), omap_replicate_None.
    constructor. }
  { intros l [? _]%elem_of_replicate. done. }
  rewrite Hrun2. f_equal.
  rewrite <- (app_nil_r (replicate size None)), omap_replicate_None
    in Hfreed2, Hobjs2.
  assert (objs s2 = objs s) as Ho.
  { apply map_eq. intros l. rewrite Hobjs2, Hobjs.
    by rewrite decide_False by apply not_elem_of_nil. }
  assert (freed s2 = freed s) as Hf by (by rewrite Hfreed2, Hfreed).
  assert (cells s2 = cells s) as Hc.
  { apply map_eq. intros k. rewrite Hcells2.
    destruct (decide (k ∈ arr)) as [Hk|Hk]; [by rewrite Hunused|].
    by apply Hframe. }
  destruct s, s2. cbn in Ho, Hf, Hc. congruence.
Qed.

(** X20. [v[i].reset(p)] then [v[j].get()] in a vector with distinct slots: slot
    [i] now holds [p] and its old object is deleted, and every other slot
    still holds what it held. *)
Theorem slot_reset_then_get_reads (s : state) (v : vector_member_ptrs)
  (i j : nat) (slot_i slot_j : positive) (held pj p : ptr) :
  length (m_ptr v) = m_size v →
  NoDup (m_ptr v) →
  m_ptr v !! i = Some slot_i →
  m_ptr v !! j = Some slot_j →
  cells s !! slot_i = Some held →
  cells s !! slot_j = Some pj →
  (∀ l, held = Some l → is_Some (objs s !! l)) →
  slot_reset_then_get v i p j s
    = Done (if decide (i = j) then p else pj)
        (deleted held
           (mkState (objs s) (freed s) (<[slot_i:=p]> (cells s)))).
Proof.
  intros Hlen Hnd Hi Hj Hci Hcj Hlive.
  pose proof (lookup_lt_Some _ _ _ Hi) as Hilt.
  pose proof (lookup_lt_Some _ _ _ Hj) as Hjlt.
  assert ((i <? m_size v)%nat = true) as Hib by (apply Nat.ltb_lt; lia).
  assert ((j <? m_size v)%nat = true) as Hjb by (apply Nat.ltb_lt; lia).
  unfold deleted. destruct (decide (i = j)) as [->|Hij].
  - simplify_eq. destruct held as [l|].
    + destruct (Hlive l eq_refl) as [o Ho]. run_more. rewrite Hjb.
      by lookups.
    + run_more. rewrite Hjb. by lookups.
  - assert (slot_i ≠ slot_j) as Hne.
    { intros ->. by pose proof (NoDup_lookup _ _ _ _ Hnd Hi Hj). }
    destruct held as [l|].
    + destruct (Hlive l eq_refl) as [o Ho]. run_more. rewrite Hib.
      lookups. rewrite Hjb. by lookups.
    + run_more. rewrite Hib. lookups. rewrite Hjb. by lookups.
Qed.

End Properties.


(** * The properties on the concrete stores *)

Lemma s_two_reachable : reachable_by raw_owned s_two.
Proof.
  apply (reachable_step _
           (mkState {[1%positive := mkT 7 1]} []
              {[1%positive := Some 1%positive]}) _ (CtorCopy 1%positive)).
  - apply (reachable_step _ (mkState {[1%positive := mkT 7 0]} [] ∅) _
             (CtorRaw (Some 1%positive))).
    + apply (reachable_step _ (mkState ∅ [] ∅) _ (New 7)).
      * constructor.
      * exact I.
      * vm_compute. reflexivity.
    + vm_compute. reflexivity.
    + vm_compute. reflexivity.
  - exact I.
  - vm_compute. reflexivity.
Defined.

Lemma get_clones_when_shared_witness :
  cells s_two !! 1%positive = Some (Some 1%positive) ∧
  objs s_two !! 1%positive = Some (mkT 7 2) ∧
  1 < 2 ∧
  counted_ptr_get 1%positive s_two
    = Done (Some 2%positive)
        (mkState {[1%positive := mkT 7 1; 2%positive := mkT 7 1]} []
           {[1%positive := Some 2%positive; 2%positive := Some 1%positive]}).
Proof.
  split; [reflexivity|]. split; [reflexivity|]. split; [lia|].
  destruct (proj1 (get_clones_when_shared (V:=Z)) s_two 1%positive 1%positive
              (mkT 7 2) eq_refl eq_refl) as [Hshared _].
  destruct (Hshared ltac:(simpl; lia)) as (_ & _ & Hget).
  rewrite Hget. vm_compute. reflexivity.
Defined.

Lemma counts_equal_holders_witness :
  reachable_by raw_owned s_two ∧
  (∀ l o, objs s_two !! l = Some o →
          m_referenceCount o = Z.of_nat (holders s_two l)) ∧
  NoDup (freed s_two).
Proof.
  split; [exact s_two_reachable|].
  destruct (counts_equal_holders s_two s_two_reachable)
    as (Hcount & _ & Hnodup & _).
  split; [exact Hcount|exact Hnodup].
Defined.

(** C2 as stated fails: [T *p = new T; counted_ptr<T> a(p); counted_ptr<T>
    b(p);] is built with the operations, and leaves the object with count 1
    and two holders; the destructors of [a] and [b] then delete it twice. *)
Lemma double_adoption_miscounts :
  run_ops [New 7; CtorRaw (Some 1%positive); CtorRaw (Some 1%positive)]
    (mkState ∅ [] ∅) = Done tt s_twice ∧
  reachable_by any_use s_twice ∧
  objs s_twice !! 1%positive = Some (mkT 7 1) ∧
  holders s_twice 1%positive = 2%nat ∧
  ¬ (∀ l o, objs s_twice !! l = Some o →
            m_referenceCount o = Z.of_nat (holders s_twice l)) ∧
  run_ops [Dtor 1%positive; Dtor 2%positive] s_twice = Undefined.
Proof.
  split; [vm_compute; reflexivity|]. split.
  { apply (reachable_step _
             (mkState {[1%positive := mkT 7 1]} []
                {[1%positive := Some 1%positive]}) _
             (CtorRaw (Some 1%positive))).
    - apply (reachable_step _ (mkState {[1%positive := mkT 7 0]} [] ∅) _
               (CtorRaw (Some 1%positive))).
      + apply (reachable_step _ (mkState ∅ [] ∅) _ (New 7)).
        * constructor.
        * exact I.
        * vm_compute. reflexivity.
      + exact I.
      + vm_compute. reflexivity.
    - exact I.
    - vm_compute. reflexivity. }
  split; [reflexivity|]. split; [vm_compute; reflexivity|]. split.
  - intros Hall. specialize (Hall 1%positive (mkT 7 1) eq_refl).
    vm_compute in Hall. discriminate Hall.
  - vm_compute. reflexivity.
Qed.

Lemma attach_clones_unshared_shares_shared_witness :
  cells s_free !! 1%positive = Some (Some 1%positive) ∧
  objs (released (Some 1%positive) s_free) !! 2%positive = Some (mkT 9 0) ∧
  counted_ptr_attach 1%positive 2%positive s_free
    = Done tt
        (mkState {[2%positive := mkT 9 0; 3%positive := mkT 9 1]}
           [1%positive] {[1%positive := Some 3%positive]}).
Proof.
  split; [reflexivity|]. split; [vm_compute; reflexivity|].
  destruct (proj1 (attach_clones_unshared_shares_shared (V:=Z)) s_free
              1%positive 2%positive (Some 1%positive) (mkT 9 0))
    as (_ & Hclone & _).
  - reflexivity.
  - intros l [= <-]. exists (mkT 7 1). reflexivity.
  - vm_compute. reflexivity.
  - destruct (Hclone eq_refl) as [Hattach _]. rewrite Hattach.
    vm_compute. reflexivity.
Defined.

(** C3 as stated fails for [w.attach( *w)] with [w] the only holder: the
    release deletes the object, and [attach] then reads its count; no clone
    is adopted, the call has no defined result. *)
Lemma sole_owner_self_attach_undefined :
  cells s_one !! 1%positive = Some (Some 1%positive) ∧
  objs s_one !! 1%positive = Some (mkT 7 1) ∧
  counted_ptr_unref 1%positive s_one
    = Done tt (mkState ∅ [1%positive] {[1%positive := Some 1%positive]}) ∧
  counted_ptr_attach 1%positive 1%positive s_one = Undefined ∧
  ¬ (∃ s', counted_ptr_attach 1%positive 1%positive s_one = Done tt s').
Proof.
  split; [reflexivity|]. split; [reflexivity|].
  split; [vm_compute; reflexivity|].
  assert (counted_ptr_attach 1%positive 1%positive s_one = Undefined) as Hrun
    by (vm_compute; reflexivity).
  split; [exact Hrun|]. intros [s' Hdone]. rewrite Hrun in Hdone.
  discriminate Hdone.
Qed.

Lemma resize_moves_and_frees_witness :
  length [1%positive; 2%positive; 3%positive] = 3%nat ∧
  (∃ newPtr s',
     vector_member_ptrs_resize
       (mkVector 3 [1%positive; 2%positive; 3%positive]) 1 s_slots
       = Done (mkVector 1 newPtr) s' ∧
     freed s' = [2%positive; 3%positive] ∧
     objs s' !! 1%positive = Some (mkT 10 0)).
Proof.
  split; [reflexivity|].
  destruct (resize_moves_and_frees s_slots
              (mkVector 3 [1%positive; 2%positive; 3%positive])
              [Some 1%positive; Some 2%positive; Some 3%positive] 1%nat)
    as (newPtr & s' & Hrun & _ & _ & _ & _ & _ & _ & _ & _ & Hfreed & _
        & Hobjs).
  - reflexivity.
  - apply (bool_decide_unpack _). vm_compute. exact I.
  - repeat constructor.
  - apply (bool_decide_unpack _). vm_compute. exact I.
  - intros l Hl. apply list_elem_of_In in Hl.
    destruct Hl as [[= <-]|[[= <-]|[[= <-]|[]]]]; eexists; reflexivity.
  - exists newPtr, s'. split; [exact Hrun|]. split; [exact Hfreed|].
    rewrite Hobjs. reflexivity.
Defined.

Lemma release_and_double_destruction_witness :
  cells s_one !! 1%positive = Some (Some 1%positive) ∧
  member_ptr_release 1%positive s_one
    = Done (Some 1%positive)
        (mkState {[1%positive := mkT 7 1]} [] {[1%positive := None]}) ∧
  simple_ptr_dtor 1%positive
    (mkState ∅ [1%positive] {[1%positive := None]})
    = Done tt (mkState (V:=Z) ∅ [1%positive] {[1%positive := None]}).
Proof.
  split; [reflexivity|].
  destruct (release_and_double_destruction s_one 1%positive (Some 1%positive)
              eq_refl) as (Hrelease & _ & Hsimple).
  split.
  - rewrite Hrelease. vm_compute. reflexivity.
  - destruct Hsimple as [_ Hagain].
    + intros l [= <-]. exists (mkT 7 1). reflexivity.
    + exact Hagain.
Defined.

Lemma copies_are_independent_and_equal_witness :
  cells s_pair !! 1%positive = Some (Some 1%positive) ∧
  cells s_pair !! 2%positive = Some (Some 2%positive) ∧
  value_ptr_eq eq_payload 1%positive 2%positive s_pair = Done false s_pair ∧
  value_ptr_copy_ctor 1%positive s_null
    = Done 2%positive
        (mkState ∅ [] {[1%positive := None; 2%positive := None]}).
Proof.
  split; [reflexivity|]. split; [reflexivity|].
  destruct (copies_are_independent_and_equal eq_payload)
    as (_ & Hnull & Heq).
  split.
  - destruct (Heq s_pair 1%positive 2%positive (Some 1%positive)
                (Some 2%positive) eq_refl eq_refl) as (r & Hrun & Hiff).
    + intros l [= <-]. exists (mkT 7 1). reflexivity.
    + intros l [= <-]. exists (mkT 9 1). reflexivity.
    + rewrite Hrun. destruct r; [|reflexivity].
      destruct (proj1 Hiff eq_refl)
        as [[Hl _]|(la & lb & oa & ob & [= <-] & [= <-] & Hoa & Hob & Ht)];
        [discriminate Hl|].
      vm_compute in Hoa, Hob. injection Hoa as <-. injection Hob as <-.
      vm_compute in Ht. discriminate Ht.
  - rewrite (Hnull s_null 1%positive eq_refl). vm_compute. reflexivity.
Defined.

Lemma assignment_releases_then_shares_witness :
  1%positive ≠ 2%positive ∧
  cells s_pair !! 1%positive = Some (Some 1%positive) ∧
  cells s_pair !! 2%positive = Some (Some 2%positive) ∧
  counted_ptr_assign 1%positive 2%positive s_pair
    = Done tt
        (mkState {[2%positive := mkT 9 2]} [1%positive]
           {[1%positive := Some 2%positive; 2%positive := Some 2%positive]}) ∧
  value_ptr_assign 1%positive 2%positive s_pair
    = Done tt
        (mkState {[2%positive := mkT 9 1; 3%positive := mkT 9 1]}
           [1%positive]
           {[1%positive := Some 3%positive; 2%positive := Some 2%positive]}).
Proof.
  split; [discriminate|]. split; [reflexivity|]. split; [reflexivity|].
  destruct (assignment_releases_then_shares (V:=Z))
    as (_ & Hcounted & _ & Hvalue).
  split.
  - rewrite (Hcounted s_pair 1%positive 2%positive (Some 1%positive)
               (Some 2%positive)).
    + vm_compute. reflexivity.
    + discriminate.
    + reflexivity.
    + reflexivity.
    + intros l [= <-]. exists (mkT 7 1). reflexivity.
    + intros l [= <-]. exists (mkT 9 1). reflexivity.
    + intros l o [= <-] [=].
  - destruct (Hvalue s_pair 1%positive 2%positive (Some 1%positive)
                (Some 2%positive)) as [Hrun _].
    + discriminate.
    + reflexivity.
    + reflexivity.
    + intros l [= <-]. exists (mkT 7 1). reflexivity.
    + intros l [= <-]. exists (mkT 9 1). reflexivity.
    + rewrite Hrun. vm_compute. reflexivity.
Defined.

Lemma arrow_clones_but_deref_shares_witness :
  cells s_two !! 1%positive = Some (Some 1%positive) ∧
  objs s_two !! 1%positive = Some (mkT 7 2) ∧
  1 < 2 ∧
  counted_ptr_deref 1%positive s_two = Done 1%positive s_two ∧
  write_then_read 1%positive 2%positive (mkT 8 2) s_two
    = Done (mkT 8 2)
        (mkState {[1%positive := mkT 8 2]} []
           {[1%positive := Some 1%positive; 2%positive := Some 1%positive]}).
Proof.
  split; [reflexivity|]. split; [reflexivity|]. split; [lia|].
  destruct (arrow_clones_but_deref_shares s_two 1%positive 1%positive
              (mkT 7 2) eq_refl eq_refl ltac:(simpl; lia))
    as (_ & Hderef & Hwrite).
  split; [exact Hderef|].
  rewrite (Hwrite 2%positive (mkT 8 2) eq_refl). vm_compute. reflexivity.
Defined.

Lemma index_traps_out_of_range_witness :
  length [5%positive; 6%positive] = 2%nat ∧
  vector_member_ptrs_index (mkVector 2 [5%positive; 6%positive]) 2 s_one
    = Trap ∧
  (∃ slot,
     vector_member_ptrs_index (mkVector 2 [5%positive; 6%positive]) 1 s_one
       = Done slot s_one).
Proof.
  split; [reflexivity|].
  destruct (index_traps_out_of_range s_one
              (mkVector 2 [5%positive; 6%positive]) 2 eq_refl)
    as [Hout _].
  destruct (index_traps_out_of_range s_one
              (mkVector 2 [5%positive; 6%positive]) 1 eq_refl)
    as [_ Hin].
  split.
  - exact (proj1 (Hout ltac:(simpl; lia))).
  - destruct (Hin ltac:(simpl; lia)) as (slot & _ & Hrun & _).
    exists slot. exact Hrun.
Defined.

Lemma assign_aliased_is_noop_witness :
  1%positive ≠ 2%positive ∧
  cells s_two !! 1%positive = Some (Some 1%positive) ∧
  cells s_two !! 2%positive = Some (Some 1%positive) ∧
  counted_ptr_assign 1%positive 2%positive s_two = Done tt s_two.
Proof.
  split; [discriminate|]. split; [reflexivity|]. split; [reflexivity|].
  apply (assign_aliased_is_noop s_two 1%positive 2%positive
           (Some 1%positive)); [discriminate|reflexivity|reflexivity].
Defined.

(** * The further properties on the concrete stores *)

Lemma reset_deletes_old_and_adopts_witness :
  cells s_one !! 1%positive = Some (Some 1%positive) ∧
  member_ptr_reset 1%positive None s_one
    = Done tt (mkState ∅ [1%positive] {[1%positive := None]}).
Proof.
  split; [reflexivity|].
  pose proof (reset_deletes_old_and_adopts s_one 1%positive
                (Some 1%positive) None eq_refl) as Hreset.
  cbv zeta in Hreset. destruct Hreset as (Hrun & _).
  - intros l [= <-]. exists (mkT 7 1). reflexivity.
  - rewrite Hrun. vm_compute. reflexivity.
Defined.

Lemma transfer_moves_ownership_witness :
  2%positive ≠ 1%positive ∧
  cells s_pair !! 1%positive = Some (Some 1%positive) ∧
  cells s_pair !! 2%positive = Some (Some 2%positive) ∧
  member_ptr_transfer 2%positive 1%positive s_pair
    = Done tt
        (mkState {[1%positive := mkT 7 1]} [2%positive]
           {[1%positive := None; 2%positive := Some 1%positive]}).
Proof.
  split; [discriminate|]. split; [reflexivity|]. split; [reflexivity|].
  destruct (transfer_moves_ownership s_pair 2%positive 1%positive
              (Some 2%positive) (Some 1%positive) eq_refl eq_refl)
    as [_ Hmove].
  - intros l [= <-]. exists (mkT 9 1). reflexivity.
  - specialize (Hmove ltac:(discriminate)). cbv zeta in Hmove.
    destruct Hmove as (Hrun & _). rewrite Hrun. vm_compute. reflexivity.
Defined.

Lemma scoped_wrapper_deletes_once_witness :
  objs s_free !! 2%positive = Some (mkT 9 0) ∧
  scoped_member_ptr (Some 2%positive) s_free
    = Done tt
        (mkState {[1%positive := mkT 7 1]} [2%positive]
           {[1%positive := Some 1%positive]}) ∧
  scoped_released_ptr (Some 2%positive) s_free
    = Done (Some 2%positive) s_free.
Proof.
  split; [reflexivity|].
  destruct (scoped_wrapper_deletes_once s_free (Some 2%positive))
    as (Hmember & _ & Hreleased).
  - intros l [= <-]. exists (mkT 9 0). reflexivity.
  - split; [|exact Hreleased]. rewrite Hmember. vm_compute. reflexivity.
Defined.

Lemma scoped_copy_leaves_original_witness :
  cells s_one !! 1%positive = Some (Some 1%positive) ∧
  scoped_value_copy 1%positive s_one
    = Done tt
        (mkState {[1%positive := mkT 7 1]} [2%positive]
           {[1%positive := Some 1%positive]}).
Proof.
  split; [reflexivity|].
  pose proof (scoped_copy_leaves_original s_one 1%positive
                (Some 1%positive) eq_refl) as Hcopy.
  cbv zeta in Hcopy. destruct Hcopy as [Hvalue _].
  - intros l [= <-]. exists (mkT 7 1). reflexivity.
  - rewrite Hvalue. vm_compute. reflexivity.
Defined.

Lemma assigned_compares_equal_witness :
  1%positive ≠ 2%positive ∧
  cells s_pair !! 1%positive = Some (Some 1%positive) ∧
  cells s_pair !! 2%positive = Some (Some 2%positive) ∧
  objs s_pair !! 2%positive = Some (mkT 9 1) ∧
  assign_then_eq eq_payload 1%positive 2%positive s_pair
    = Done true
        (mkState {[2%positive := mkT 9 1; 3%positive := mkT 9 1]}
           [1%positive]
           {[1%positive := Some 3%positive; 2%positive := Some 2%positive]}).
Proof.
  split; [discriminate|]. split; [reflexivity|]. split; [reflexivity|].
  split; [reflexivity|].
  pose proof (assigned_compares_equal eq_payload s_pair 1%positive
                2%positive (Some 1%positive) 2%positive (mkT 9 1)) as Heq.
  cbv zeta in Heq. destruct Heq as (Hrun & _).
  - discriminate.
  - reflexivity.
  - reflexivity.
  - reflexivity.
  - intros l [= <-]. exists (mkT 7 1). reflexivity.
  - discriminate.
  - rewrite Hrun. vm_compute. reflexivity.
Defined.

Lemma value_ptr_eq_symmetric_witness :
  (∀ x y, eq_payload x y = eq_payload y x) ∧
  value_ptr_eq eq_payload 1%positive 2%positive s_pair
    = value_ptr_eq eq_payload 2%positive 1%positive s_pair.
Proof.
  assert (∀ x y, eq_payload x y = eq_payload y x) as Hsym.
  { intros x y. apply Z.eqb_sym. }
  split; [exact Hsym|].
  exact (proj1 (value_ptr_eq_symmetric eq_payload s_pair 1%positive
                  2%positive Hsym)).
Defined.

Lemma clonable_copy_is_independent_witness :
  cells s_one !! 1%positive = Some (Some 1%positive) ∧
  clonable_ptr_copy_ctor 1%positive s_one
    = Done 2%positive
        (mkState {[1%positive := mkT 7 1; 2%positive := mkT 7 1]} []
           {[1%positive := Some 1%positive; 2%positive := Some 2%positive]}).
Proof.
  split; [reflexivity|].
  pose proof (clonable_copy_is_independent s_one 1%positive
                (Some 1%positive) eq_refl) as Hcopy.
  cbv zeta in Hcopy. destruct Hcopy as (Hrun & _).
  - intros l [= <-]. exists (mkT 7 1). reflexivity.
  - rewrite Hrun. vm_compute. reflexivity.
Defined.

Lemma clonable_assign_clones_then_deletes_witness :
  1%positive ≠ 2%positive ∧
  cells s_pair !! 1%positive = Some (Some 1%positive) ∧
  cells s_pair !! 2%positive = Some (Some 2%positive) ∧
  clonable_ptr_assign 1%positive 2%positive s_pair
    = Done tt
        (mkState {[2%positive := mkT 9 1; 3%positive := mkT 9 1]}
           [1%positive]
           {[1%positive := Some 3%positive; 2%positive := Some 2%positive]}).
Proof.
  split; [discriminate|]. split; [reflexivity|]. split; [reflexivity|].
  pose proof (proj2 (clonable_assign_clones_then_deletes (V:=Z)) s_pair
                1%positive 2%positive (Some 1%positive) (Some 2%positive))
    as Hassign.
  cbv zeta in Hassign. destruct Hassign as (Hrun & _).
  - discriminate.
  - reflexivity.
  - reflexivity.
  - intros l [= <-]. exists (mkT 7 1). reflexivity.
  - intros l [= <-]. exists (mkT 9 1). reflexivity.
  - rewrite Hrun. vm_compute. reflexivity.
Defined.

Lemma scoped_counted_raw_deletes_witness :
  objs s_free !! 2%positive = Some (mkT 9 0) ∧
  scoped_counted_raw (Some 2%positive) s_free
    = Done tt
        (mkState {[1%positive := mkT 7 1]} [2%positive]
           {[1%positive := Some 1%positive]}).
Proof.
  split; [reflexivity|].
  rewrite (scoped_counted_raw_deletes s_free (Some 2%positive)).
  - vm_compute. reflexivity.
  - intros l [= <-]. exists (mkT 9 0). reflexivity.
Defined.

Lemma scoped_counted_copy_restores_witness :
  cells s_one !! 1%positive = Some (Some 1%positive) ∧
  objs s_one !! 1%positive = Some (mkT 7 1) ∧
  scoped_counted_copy 1%positive s_one = Done tt s_one.
Proof.
  split; [reflexivity|]. split; [reflexivity|].
  apply (scoped_counted_copy_restores s_one 1%positive (Some 1%positive)).
  - reflexivity.
  - intros l [= <-]. exists (mkT 7 1). split; [reflexivity|discriminate].
Defined.

Lemma scoped_counted_obj_leaves_object_witness :
  objs s_free !! 1%positive = Some (mkT 7 1) ∧
  objs s_free !! 2%positive = Some (mkT 9 0) ∧
  scoped_counted_obj 1%positive s_free = Done tt s_free ∧
  scoped_counted_obj 2%positive s_free
    = Done tt
        (mkState {[1%positive := mkT 7 1; 2%positive := mkT 9 0]}
           [3%positive] {[1%positive := Some 1%positive]}).
Proof.
  split; [reflexivity|]. split; [reflexivity|]. split.
  - apply (proj1 (scoped_counted_obj_leaves_object s_free 1%positive
                    (mkT 7 1) eq_refl)).
    discriminate.
  - rewrite (proj2 (scoped_counted_obj_leaves_object s_free 2%positive
                      (mkT 9 0) eq_refl) eq_refl).
    vm_compute. reflexivity.
Defined.

Lemma get_twice_is_get_witness :
  cells s_two !! 1%positive = Some (Some 1%positive) ∧
  (∃ q s', counted_ptr_get 1%positive s_two = Done q s' ∧
           counted_ptr_get 1%positive s' = Done q s').
Proof.
  split; [reflexivity|].
  destruct (get_twice_is_get s_two 1%positive (Some 1%positive) eq_refl)
    as (q & s' & Hget & _ & Hagain & _).
  - intros l [= <-]. exists (mkT 7 2). reflexivity.
  - exists q, s'. split; [exact Hget|exact Hagain].
Defined.

Lemma get_write_is_private_witness :
  1%positive ≠ 2%positive ∧
  cells s_two !! 1%positive = Some (Some 1%positive) ∧
  cells s_two !! 2%positive = Some (Some 1%positive) ∧
  objs s_two !! 1%positive = Some (mkT 7 2) ∧
  (∃ r s', get_write_then_read 1%positive 2%positive (mkT 8 1) s_two
             = Done r s' ∧ payload r = 7).
Proof.
  split; [discriminate|]. split; [reflexivity|]. split; [reflexivity|].
  split; [reflexivity|].
  apply (get_write_is_private s_two 1%positive 2%positive 1%positive
           1%positive (mkT 7 2) (mkT 7 2) (mkT 8 1)).
  - discriminate.
  - reflexivity.
  - reflexivity.
  - reflexivity.
  - reflexivity.
  - intros _. simpl. lia.
Defined.

Lemma self_attach_needs_a_sharer_witness :
  cells s_one !! 1%positive = Some (Some 1%positive) ∧
  objs s_one !! 1%positive = Some (mkT 7 1) ∧
  counted_ptr_attach 1%positive 1%positive s_one = Undefined ∧
  counted_ptr_attach 1%positive 1%positive s_two = Done tt s_two.
Proof.
  split; [reflexivity|]. split; [reflexivity|]. split.
  - apply (proj1 (self_attach_needs_a_sharer s_one 1%positive 1%positive
                    (mkT 7 1) eq_refl eq_refl)).
    reflexivity.
  - apply (proj2 (self_attach_needs_a_sharer s_two 1%positive 1%positive
                    (mkT 7 2) eq_refl eq_refl)).
    discriminate.
Defined.

Lemma assign_twice_is_assign_witness :
  1%positive ≠ 2%positive ∧
  cells s_pair !! 1%positive = Some (Some 1%positive) ∧
  cells s_pair !! 2%positive = Some (Some 2%positive) ∧
  (∃ s', counted_ptr_assign 1%positive 2%positive s_pair = Done tt s' ∧
         counted_ptr_assign 1%positive 2%positive s' = Done tt s').
Proof.
  split; [discriminate|]. split; [reflexivity|]. split; [reflexivity|].
  destruct (assign_twice_is_assign s_pair 1%positive 2%positive
              (Some 1%positive) (Some 2%positive))
    as (s' & Hrun & _ & _ & Hagain).
  - discriminate.
  - reflexivity.
  - reflexivity.
  - intros l [= <-]. exists (mkT 7 1). reflexivity.
  - intros l [= <-]. exists (mkT 9 1). reflexivity.
  - exists s'. split; [exact Hrun|exact Hagain].
Defined.

Lemma vector_dtor_frees_each_once_witness :
  NoDup [1%positive; 2%positive; 3%positive] ∧
  (∃ s', vector_member_ptrs_dtor
           (mkVector 3 [1%positive; 2%positive; 3%positive]) s_slots
         = Done tt s' ∧
         freed s' = [1%positive; 2%positive; 3%positive]).
Proof.
  assert (NoDup [1%positive; 2%positive; 3%positive]) as Hnd.
  { apply (bool_decide_unpack _). vm_compute. exact I. }
  split; [exact Hnd|].
  destruct (vector_dtor_frees_each_once s_slots
              (mkVector 3 [1%positive; 2%positive; 3%positive])
              [Some 1%positive; Some 2%positive; Some 3%positive] Hnd)
    as [Hiff Heffect].
  - repeat constructor.
  - destruct (proj2 Hiff) as [s' Hrun].
    + split; [exact Hnd|]. intros l Hl. apply list_elem_of_In in Hl.
      destruct Hl as [[= <-]|[[= <-]|[[= <-]|[]]]]; eexists; reflexivity.
    + exists s'. split; [exact Hrun|].
      destruct (Heffect s' Hrun) as (Hfreed & _). exact Hfreed.
Defined.

Lemma new_vector_is_empty_witness :
  (1 < 2)%nat ∧
  (∃ this s',
     vector_member_ptrs_ctor 2 s_one = Done this s' ∧
     ∃ slot, vector_member_ptrs_index this 1 s' = Done slot s' ∧
             member_ptr_get slot s' = Done None s').
Proof.
  split; [lia|].
  destruct (new_vector_is_empty s_one 2)
    as (this & s' & Hrun & _ & _ & _ & _ & _ & _ & _ & Hslots).
  exists this, s'. split; [exact Hrun|]. apply Hslots. lia.
Defined.

Lemma slot_reset_then_get_reads_witness :
  length [1%positive; 2%positive; 3%positive] = 3%nat ∧
  cells s_slots !! 1%positive = Some (Some 1%positive) ∧
  cells s_slots !! 2%positive = Some (Some 2%positive) ∧
  slot_reset_then_get (mkVector 3 [1%positive; 2%positive; 3%positive])
    0 None 1 s_slots
    = Done (Some 2%positive)
        (mkState {[2%positive := mkT 20 0; 3%positive := mkT 30 0]}
           [1%positive]
           {[1%positive := None; 2%positive := Some 2%positive;
             3%positive := Some 3%positive]}).
Proof.
  split; [reflexivity|]. split; [reflexivity|]. split; [reflexivity|].
  rewrite (slot_reset_then_get_reads s_slots
             (mkVector 3 [1%positive; 2%positive; 3%positive]) 0 1
             1%positive 2%positive (Some 1%positive) (Some 2%positive) None).
  - vm_compute. reflexivity.
  - reflexivity.
  - apply (bool_decide_unpack _). vm_compute. exact I.
  - reflexivity.
  - reflexivity.
  - reflexivity.
  - reflexivity.
  - intros l [= <-]. exists (mkT 10 0). reflexivity.
Defined.

Lemma released_wrapper_is_empty_witness :
  cells s_one !! 1%positive = Some (Some 1%positive) ∧
  member_ptr_deref 1%positive
    (mkState {[1%positive := mkT 7 1]} [] {[1%positive := None]})
    = Undefined.
Proof.
  split; [reflexivity|].
  pose proof (released_wrapper_is_empty s_one 1%positive (Some 1%positive)
                eq_refl) as Hreleased.
  cbv zeta in Hreleased. destruct Hreleased as (_ & _ & _ & _ & Hderef).
  exact Hderef.
Defined.
